(** * flame9.py: the ASCII fire animation

    A shallow embedding of [src/flame9.py] (heat buffer, heat injection,
    diffusion pass, glyph and colour selection, frame loop and shutdown)
    together with the properties of its specification. *)

From Stdlib Require Import ZArith Lia Bool String Ascii DecimalString DecimalNat.
From stdpp Require Import base list list_numbers.

Local Open Scope Z_scope.

(** ** Python's binary64 arithmetic

    The program mixes integers and floats: [int(width / 9)],
    [int(random.random() * width + width * (height - 1))],
    [int((...) / 4)] and [int(i / width)].  A float is modelled by an
    integer mantissa and a binary exponent; every operation computes the
    exact rational result and rounds it to 53 significant bits, ties to
    even, as IEEE 754 binary64 does ([int / int] in Python is the
    correctly rounded quotient of the two integers, and an integer
    operand of [*] or [+] is first converted with [float]).  The
    exponent range is not bounded: binary64 agrees with the model for
    results whose magnitude lies in [2^-1022, 2^1024) (or is zero), which
    covers every value this program computes on a terminal of fewer than
    2^53 cells. *)

Module F64.

Record float := mk { mant : Z; expo : Z }.

(** [mant * 2^expo] as the fraction [num / den]. *)
Definition pn (s : Z) : Z := 2 ^ Z.max 0 (- s).
Definition pd (s : Z) : Z := 2 ^ Z.max 0 s.
Definition num (f : float) : Z := mant f * pd (expo f).
Definition den (f : float) : Z := pn (expo f).

(** Nearest integer to [N / D], ties to even ([0 <= N], [0 < D]). *)
Definition nearest_even (N D : Z) : Z :=
  let q := N / D in
  let r := N mod D in
  if 2 * r <? D then q
  else if D <? 2 * r then q + 1
  else if Z.even q then q else q + 1.

(** The exponent of the unit in the last place of [n / d]: the [s] with
    [2^52 <= (n / d) / 2^s < 2^53]. *)
Definition ulp_expo (n d : Z) : Z :=
  let s0 := Z.log2 n - Z.log2 d - 52 in
  if n * pn s0 <? 2 ^ 52 * (d * pd s0) then s0 - 1 else s0.

(** Rounding of the positive rational [n / d]. *)
Definition round_pos (n d : Z) : float :=
  let s := ulp_expo n d in
  mk (nearest_even (n * pn s) (d * pd s)) s.

(** Rounding of any rational [n / d] with [d <> 0]; rounding to nearest
    is symmetric around zero. *)
Definition round (n d : Z) : float :=
  if n =? 0 then mk 0 0
  else
    let f := round_pos (Z.abs n) (Z.abs d) in
    mk (Z.sgn n * Z.sgn d * mant f) (expo f).

(** [float(z)] for a Python integer. *)
Definition of_int (z : Z) : float := round z 1.

(** A float that is given exactly, [m * 2^e]. *)
Definition exact (m e : Z) : float := mk m e.

Definition mul (f g : float) : float :=
  round (num f * num g) (den f * den g).

Definition add (f g : float) : float :=
  round (num f * den g + num g * den f) (den f * den g).

(** [a / b] on Python integers: the correctly rounded quotient. *)
Definition div_int (a b : Z) : float := round a b.

(** [int(f)]: truncation towards zero. *)
Definition to_int (f : float) : Z := Z.quot (num f) (den f).

(** 2^52 and 2^53, the bounds of a 53-bit mantissa. *)
Definition two52 : Z := 4503599627370496.
Definition two53 : Z := 9007199254740992.

End F64.

(** ** Python values: exceptions and lists *)

Inductive exn :=
  | IndexError | ZeroDivisionError | KeyboardInterrupt | CursesError
  | ValueError | UnicodeEncodeError.

Inductive res (A : Type) : Type :=
  | Ok (a : A)
  | Raise (e : exn).
Arguments Ok {A} a.
Arguments Raise {A} e.

#[global] Instance res_ret : MRet res := fun _ a => Ok a.
#[global] Instance res_bind : MBind res := fun _ _ k m =>
  match m with
  | Ok a => k a
  | Raise e => Raise e
  end.

(** [a / b] followed by [int(...)], both on Python integers. *)
Definition int_truediv (a b : Z) : res Z :=
  if b =? 0 then Raise ZeroDivisionError
  else Ok (F64.to_int (F64.div_int a b)).

(** The position a subscript [i] denotes in a list of length [len]:
    negative subscripts count from the end, anything else out of range
    raises [IndexError]. *)
Definition py_index (len : nat) (i : Z) : res nat :=
  if (0 <=? i) && (i <? Z.of_nat len) then Ok (Z.to_nat i)
  else if (- Z.of_nat len <=? i) && (i <? 0) then Ok (Z.to_nat (Z.of_nat len + i))
  else Raise IndexError.

Definition getitem {A} (l : list A) (i : Z) : res A :=
  n ← py_index (length l) i;
  match l !! n with
  | Some x => Ok x
  | None => Raise IndexError
  end.

Definition setitem {A} (l : list A) (i : Z) (x : A) : res (list A) :=
  n ← py_index (length l) i;
  Ok (<[n := x]> l).

(** [for i in range(n): st = body(i, st)], stopping at the first
    exception. *)
Fixpoint for_each {S} (l : list Z) (body : Z → S → res S) (st : S) : res S :=
  match l with
  | [] => Ok st
  | i :: l' => st' ← body i st; for_each l' body st'
  end.

Definition range (n : Z) : list Z := seqZ 0 n.

(** ** The terminal and the environment of a run *)

(** One successful [screen.addstr(row, col, glyph, color_pair(pair) | A_BOLD)]. *)
Record draw := mkdraw { drow : Z; dcol : Z; glyph : string; pair : Z; bold : bool }.

(** Where a Ctrl-C can reach the program. *)
Inductive sigpoint :=
  | AtInit                   (* in [curses.wrapper], before [initscr] has returned *)
  | AtStartup                (* in lines 18 to 32, before the [try] of [main] is entered *)
  | AtSimulate (frame : nat) (* while frame number [frame] is computed and drawn *)
  | AtPoll (frame : nat)     (* in [refresh], [timeout] or [getch] at the end of that frame *)
  | AtEndwin                 (* in [curses.endwin()] of the [finally] block *)
  | AtPrint                  (* in the [finally] block, before the summary is written *)
  | AtReturn.                (* in the [finally] block, once the summary is written *)

Record env := mkenv {
  getmaxyx : Z * Z;              (* (height, width) of the terminal *)
  rand : nat → Z;                (* the n-th [random.random()] is [rand n / 2^53] *)
  addstr_err : Z → Z → bool;     (* [addstr] at (row, col) raises [curses.error] *)
  getch : nat → Z;               (* the key polled at the end of frame n, -1 if none *)
  sigint : sigpoint → bool;      (* a KeyboardInterrupt is delivered at that point *)
  sigwhere : nat → nat;          (* how many statements of frame n have run when its
                                    interrupt is delivered *)
  initscr_exn : option exn;      (* what [initscr] raises, if anything *)
  setup_exn : option exn;        (* what [curs_set], [start_color], [init_pair] or
                                    [clear] raise, if anything *)
  stdout_encodes : bool          (* [sys.stdout] can encode the summary line *)
}.

(** ** src/flame9.py, [main] *)

Definition char : list string :=
  [" "; "."; ":"; "^"; "*"; "x"; "s"; "S"; "#"; "$"]%string.

Definition init_buffer (width height : Z) : list Z :=
  replicate (Z.to_nat (width * height + width + 1)) 0.

(** [int(width / 9)] *)
Definition inject_count (width : Z) : Z := F64.to_int (F64.div_int width 9).

(** [int((random.random() * width) + width * (height - 1))], for the
    draw [k / 2^53]. *)
Definition inject_index (width height k : Z) : Z :=
  F64.to_int
    (F64.add (F64.mul (F64.exact k (-53)) (F64.of_int width))
             (F64.of_int (width * (height - 1)))).

(** One iteration of the injection loop. *)
Definition inject_once (width height k : Z) (b : list Z) : res (list Z) :=
  setitem b (inject_index width height k) 65.

(** [for _ in range(int(width / 9)): ...], from the [t]-th random draw on. *)
Fixpoint inject (e : env) (width height : Z) (n : nat) (t : nat) (b : list Z)
  : res (list Z * nat) :=
  match n with
  | O => Ok (b, t)
  | S n' =>
      b' ← inject_once width height (rand e t) b;
      inject e width height n' (S t) b'
  end.

Definition color (v : Z) : Z :=
  if 15 <? v then 4 else if 9 <? v then 3 else if 4 <? v then 2 else 1.

(** The subscript into [char]. *)
Definition ramp (v : Z) : Z := if 9 <? v then 9 else v.

(** [screen.addstr] inside [try: ... except curses.error: pass]. *)
Definition addstr (e : env) (d : draw) (scr : list draw) : res (list draw) :=
  if addstr_err e (drow d) (dcol d) then Raise CursesError else Ok (scr ++ [d]).

Definition except_curses_pass (r : res (list draw)) (scr : list draw) : res (list draw) :=
  match r with
  | Raise CursesError => Ok scr
  | _ => r
  end.

(** The new heat of cell [i]: [int((b[i] + b[i+1] + b[i+width] + b[i+width+1]) / 4)]. *)
Definition spread_value (width : Z) (b : list Z) (i : Z) : res Z :=
  b0 ← getitem b i;
  b1 ← getitem b (i + 1);
  b2 ← getitem b (i + width);
  b3 ← getitem b (i + width + 1);
  int_truediv (b0 + b1 + b2 + b3) 4.

(** The assignment [b[i] = ...] of the diffusion loop. *)
Definition spread (width : Z) (i : Z) (b : list Z) : res (list Z) :=
  v ← spread_value width b i;
  setitem b i v.

(** The drawing part of the loop body, lines 43 to 58. *)
Definition render (e : env) (width height : Z) (i : Z) (b : list Z)
    (scr : list draw) : res (list draw) :=
  v ← getitem b i;
  let color := color v in
  if i <? width * height - 1 then
    row ← int_truediv i width;
    let col := i `mod` width in
    if (row <? height) && (col <? width) then
      g ← getitem char (ramp v);
      except_curses_pass (addstr e (mkdraw row col g color true) scr) scr
    else Ok scr
  else Ok scr.

(** The body of [for i in range(size)]. *)
Definition spread_cell (e : env) (width height : Z) (i : Z)
    (st : list Z * list draw) : res (list Z * list draw) :=
  b' ← spread width i st.1;
  scr' ← render e width height i b' st.2;
  Ok (b', scr').

Record state := mkstate {
  buf : list Z;          (* b *)
  calls : nat;           (* random draws consumed so far *)
  scr : list draw;       (* what has been drawn *)
  frame_count : nat
}.

(** One iteration of [while True] up to [screen.refresh()]. *)
Definition frame (e : env) (width height : Z) (st : state) : res state :=
  '(b, t) ← inject e width height (Z.to_nat (inject_count width)) (calls st) (buf st);
  '(b', scr') ← for_each (range (width * height)) (spread_cell e width height) (b, scr st);
  Ok (mkstate b' t scr' (frame_count st)).

Definition check (e : env) (p : sigpoint) : res unit :=
  if sigint e p then Raise KeyboardInterrupt else Ok tt.

(** The statements of a frame that change the state, one by one: an
    iteration of the injection loop (line 38), the assignment of
    iteration [i] of the diffusion loop (line 42) and the drawing of that
    iteration (lines 43 to 58). *)
Inductive step :=
  | Inject
  | Assign (i : Z)
  | Draw (i : Z).

Definition exec_step (e : env) (width height : Z) (s : step) (st : state) : res state :=
  match s with
  | Inject =>
      b' ← inject_once width height (rand e (calls st)) (buf st);
      Ok (mkstate b' (S (calls st)) (scr st) (frame_count st))
  | Assign i =>
      b' ← spread width i (buf st);
      Ok (mkstate b' (calls st) (scr st) (frame_count st))
  | Draw i =>
      sc' ← render e width height i (buf st) (scr st);
      Ok (mkstate (buf st) (calls st) sc' (frame_count st))
  end.

(** The statements of one frame, in the order lines 37 to 58 run them. *)
Definition frame_steps (width height : Z) : list step :=
  replicate (Z.to_nat (inject_count width)) Inject
  ++ flat_map (fun i => [Assign i; Draw i]) (range (width * height)).

(** Running statements until one raises: the outcome, and the state the
    program is in at that moment, which holds every write and every draw
    made before. *)
Fixpoint run_steps (e : env) (width height : Z) (l : list step) (st : state)
  : res unit * state :=
  match l with
  | [] => (Ok tt, st)
  | s :: l' =>
      match exec_step e width height s st with
      | Ok st1 => run_steps e width height l' st1
      | Raise x => (Raise x, st)
      end
  end.

(** [while True: ...]; [None] when [fuel] frames did not reach an exit.
    A KeyboardInterrupt delivered while frame [n] is computed arrives
    after the first [sigwhere e n] statements of the frame (after the
    last one if the frame has fewer); the state returned with an
    exception is the one of that moment. *)
Fixpoint loop (e : env) (width height : Z) (fuel : nat) (st : state)
  : option (res unit * state) :=
  match fuel with
  | O => None
  | S fuel' =>
      let steps :=
        if sigint e (AtSimulate (frame_count st))
        then take (sigwhere e (frame_count st)) (frame_steps width height)
        else frame_steps width height in
      match run_steps e width height steps st with
      | (Raise x, st1) => Some (Raise x, st1)
      | (Ok _, st1) =>
          match check e (AtSimulate (frame_count st))
                ≫= (fun _ => check e (AtPoll (frame_count st))) with
          | Raise x => Some (Raise x, st1)
          | Ok _ =>
              if negb (getch e (frame_count st) =? -1) then Some (Ok tt, st1)
              else loop e width height fuel'
                     (mkstate (buf st1) (calls st1) (scr st1) (S (frame_count st1)))
          end
      end
  end.

(** What the process does that is visible from outside. *)
Inductive event :=
  | Endwin
  | Print (s : string)
  | Traceback (x : exn).

Definition nl : string := String "010"%char EmptyString.

Definition summary (n : nat) : string :=
  (nl ++ "🔥 BUNIT Animation stopped after "
      ++ NilEmpty.string_of_uint (Nat.to_uint n) ++ " frames" ++ nl)%string.

Definition init_state (width height : Z) : state :=
  mkstate (init_buffer width height) 0 [] 0.

(** Lines 18 to 32: reading the size and setting the terminal up. *)
Definition setup (e : env) : res unit :=
  _ ← check e AtStartup;
  match setup_exn e with
  | Some x => Raise x
  | None => Ok tt
  end.

(** The [finally] block of [main], lines 71 and 72, when [main] would
    otherwise end with [r]: an exception raised in the block replaces
    [r]. *)
Definition shutdown (e : env) (r : res unit) (n : nat) : res unit * list event :=
  if sigint e AtEndwin then (Raise KeyboardInterrupt, [])
  else if sigint e AtPrint then (Raise KeyboardInterrupt, [Endwin])
  else if negb (stdout_encodes e) then (Raise UnicodeEncodeError, [Endwin])
  else if sigint e AtReturn then (Raise KeyboardInterrupt, [Endwin; Print (summary n)])
  else (r, [Endwin; Print (summary n)]).

(** [main(screen)]: the outcome, the events and the final state. *)
Definition main (e : env) (fuel : nat) : option (res unit * list event * state) :=
  let width := (getmaxyx e).2 in
  let height := (getmaxyx e).1 in
  let st0 := init_state width height in
  match setup e with
  | Raise x => Some (Raise x, [], st0)
  | Ok _ =>
      match loop e width height fuel st0 with
      | None => None
      | Some (r, st) =>
          (* except KeyboardInterrupt: pass *)
          let r' := match r with Raise KeyboardInterrupt => Ok tt | _ => r end in
          (* finally: curses.endwin(); print(...) *)
          let '(r'', evs) := shutdown e r' (frame_count st) in
          Some (r'', evs, st)
      end
  end.

Definition goodbye : string := (nl ++ "Animation stopped." ++ nl)%string.

(** Lines 75 to 79 on the exception [x] that left [curses.wrapper]. *)
Definition handle (x : exn) (evs : list event) : list event * Z :=
  match x with
  | KeyboardInterrupt => (evs ++ [Print goodbye], 0)
  | _ => (evs ++ [Traceback x], 1)
  end.

(** The script.  [curses.wrapper(main)] calls [initscr], then [main],
    and restores the terminal with [endwin] whatever [main] does, but
    only once [initscr] has returned; the result is the event trace and
    the exit status of the process. *)
Definition program (e : env) (fuel : nat) : option (list event * Z) :=
  match check e AtInit ≫= (fun _ => match initscr_exn e with
                                    | Some x => Raise x
                                    | None => Ok tt
                                    end) with
  | Raise x => Some (handle x [])
  | Ok _ =>
      match main e fuel with
      | None => None
      | Some (r, evs, _) =>
          match r with
          | Ok _ => Some (evs ++ [Endwin], 0)
          | Raise x => Some (handle x (evs ++ [Endwin]))
          end
      end
  end.

(** The diffusion pass alone, on the buffer. *)
Definition diffuse (width height : Z) (b : list Z) : res (list Z) :=
  for_each (range (width * height)) (spread width) b.

(** The same pass as the specification words it for a parallel
    implementation: every new value is computed from the buffer as it was
    before the pass. *)
Definition diffuse_snapshot (width height : Z) (b : list Z) : res (list Z) :=
  for_each (range (width * height))
    (fun i acc => v ← spread_value width b i; setitem acc i v) b.

(** ** Reachable buffers

    The buffers the program can hold at any time: it starts from the
    all-zero buffer and changes it only by an injection write and by the
    assignment of the diffusion loop. *)
Inductive reach (width height : Z) : list Z → Prop :=
  | reach_init : reach width height (init_buffer width height)
  | reach_inject b k b' :
      reach width height b →
      inject_once width height k b = Ok b' →
      reach width height b'
  | reach_spread b i b' :
      reach width height b →
      spread width i b = Ok b' →
      reach width height b'.

(** The shape of the buffer between two statements of the loop. *)
Definition buffer_ok (width height : Z) (b : list Z) : Prop :=
  length b = length (init_buffer width height) ∧ Forall (fun v => 0 <= v <= 65) b.

(** Frame [j] runs to its end and the loop goes on: no signal while it
    is computed or polled, and no key. *)
Definition frame_passes (e : env) (j : nat) : Prop :=
  sigint e (AtSimulate j) = false ∧ sigint e (AtPoll j) = false ∧ getch e j = -1.

(** The loop is left in frame [j]: by a signal or by a key. *)
Definition frame_stops (e : env) (j : nat) : Prop :=
  sigint e (AtSimulate j) = true ∨ sigint e (AtPoll j) = true ∨ getch e j ≠ -1.



(** The heat a buffer holds in all. *)
Definition total (b : list Z) : Z := foldr Z.add 0 b.

(** The cell at position [n], [0] behind the end. *)
Definition cell (b : list Z) (n : nat) : Z := default 0 (b !! n).

(** A draw that addresses a cell of the [height] x [width] screen other
    than the bottom-right one, bold, in one of the four colour pairs,
    with a glyph of the ramp. *)
Definition draw_ok (width height : Z) (d : draw) : Prop :=
  0 <= drow d < height ∧ 0 <= dcol d < width ∧
  drow d * width + dcol d < width * height - 1 ∧
  bold d = true ∧ 1 <= pair d <= 4 ∧ glyph d ∈ char.

(** A draw of the coldest glyph in the background colour. *)
Definition coldest (d : draw) : Prop := glyph d = " "%string ∧ pair d = 1.

(** An 80x24 terminal on which nothing happens: every draw is [1/2], no
    draw fails, no key, no signal. *)
Definition idle_env : env :=
  mkenv (24, 80) (fun _ => 2 ^ 52) (fun _ _ => false) (fun _ => -1) (fun _ => false)
        (fun _ => 0%nat) None None true.

(** A 9x3 terminal where the key is pressed in frame 2, otherwise as
    above, and one where Ctrl-C arrives before the loop is entered. *)
Definition small_env : env :=
  mkenv (3, 9) (fun _ => 2 ^ 52) (fun _ _ => false)
        (fun n => if (n =? 2)%nat then 113 else -1) (fun _ => false)
        (fun _ => 0%nat) None None true.

(** An 8x3 terminal, too narrow for any injection, with the same key. *)
Definition narrow_env : env :=
  mkenv (3, 8) (fun _ => 2 ^ 52) (fun _ _ => false)
        (fun n => if (n =? 2)%nat then 113 else -1) (fun _ => false)
        (fun _ => 0%nat) None None true.

(** A 9x3 terminal that refuses every draw. *)
Definition stubborn_env : env :=
  mkenv (3, 9) (fun _ => 2 ^ 52) (fun _ _ => true) (fun _ => -1) (fun _ => false)
        (fun _ => 0%nat) None None true.


(** A 9x3 terminal where Ctrl-C arrives in frame 1 after 30 statements
    of that frame, in the middle of the diffusion pass. *)
Definition midframe_sigint_env : env :=
  mkenv (3, 9) (fun _ => 2 ^ 52) (fun _ _ => false) (fun _ => -1)
        (fun p => match p with AtSimulate 1 => true | _ => false end)
        (fun _ => 30%nat) None None true.




Example round_third : F64.round 1 3 = F64.mk 6004799503160661 (-54).
Proof. vm_compute. reflexivity. Qed.

Example inject_index_80_24 : inject_index 80 24 (2 ^ 53 - 1) = 1920.
Proof. vm_compute. reflexivity. Qed.

Example inject_index_80_24_mid : inject_index 80 24 (2 ^ 52) = 1880.
Proof. vm_compute. reflexivity. Qed.

Example inject_count_80 : inject_count 80 = 8.
Proof. vm_compute. reflexivity. Qed.

Example diffuse_9_3 :
  diffuse 9 3 (<[20%nat := 65]> (init_buffer 9 3)) =
  Ok (<[10%nat := 16]> (<[11%nat := 16]> (<[19%nat := 16]> (<[20%nat := 16]> (init_buffer 9 3))))).
Proof. vm_compute. reflexivity. Qed.

(** ** Facts about the rounding *)

Module F64Facts.
Import F64.

Lemma pn_pos s : 0 < pn s.
Proof. unfold pn. apply Z.pow_pos_nonneg; lia. Qed.

Lemma pd_pos s : 0 < pd s.
Proof. unfold pd. apply Z.pow_pos_nonneg; lia. Qed.

Lemma pn_of_nonneg s : 0 <= s -> pn s = 1.
Proof. intros H. unfold pn. replace (Z.max 0 (- s)) with 0 by lia. reflexivity. Qed.

Lemma pd_of_nonpos s : s <= 0 -> pd s = 1.
Proof. intros H. unfold pd. replace (Z.max 0 s) with 0 by lia. reflexivity. Qed.

Lemma pd_succ s : 0 <= s -> pd (s + 1) = 2 * pd s.
Proof.
  intros H. unfold pd.
  replace (Z.max 0 (s + 1)) with (Z.succ (Z.max 0 s)) by lia.
  rewrite Z.pow_succ_r by lia. reflexivity.
Qed.

Lemma pn_pred s : s <= 0 -> pn (s - 1) = 2 * pn s.
Proof.
  intros H. unfold pn.
  replace (Z.max 0 (- (s - 1))) with (Z.succ (Z.max 0 (- s))) by lia.
  rewrite Z.pow_succ_r by lia. reflexivity.
Qed.

Lemma pd_ge_2 s : 0 < s -> 2 <= pd s.
Proof.
  intros H. replace s with ((s - 1) + 1) by lia.
  rewrite pd_succ by lia. pose proof (pd_pos (s - 1)). lia.
Qed.

Lemma pn_ge_2 s : s < 0 -> 2 <= pn s.
Proof.
  intros H. replace s with ((s + 1) - 1) by lia.
  rewrite pn_pred by lia. pose proof (pn_pos (s + 1)). lia.
Qed.

(** The two scalings of an exponent [a - c - 52] balance. *)
Lemma pn_pd_balance a c :
  0 <= a -> 0 <= c ->
  pn (a - c - 52) * 2 ^ a = pd (a - c - 52) * 2 ^ c * 2 ^ 52.
Proof.
  intros Ha Hc. unfold pn, pd.
  rewrite <- !Z.pow_add_r by lia. f_equal. lia.
Qed.

(** *** Rounding a fraction to an integer *)

Section Nearest.
Variables N D : Z.
Hypothesis HN : 0 <= N.
Hypothesis HD : 0 < D.

Lemma nearest_even_cases :
  (nearest_even N D = N / D /\ 2 * (N mod D) <= D) \/
  (nearest_even N D = N / D + 1 /\ D <= 2 * (N mod D)).
Proof.
  unfold nearest_even.
  destruct (Z.ltb_spec (2 * (N mod D)) D); [left; lia |].
  destruct (Z.ltb_spec D (2 * (N mod D))); [right; lia |].
  destruct (Z.even (N / D)); [left | right]; lia.
Qed.

Lemma nearest_even_le K : N <= K * D -> nearest_even N D <= K.
Proof.
  intros HK. pose proof (Z.div_mod N D ltac:(lia)) as E.
  pose proof (Z.mod_pos_bound N D HD) as B.
  destruct nearest_even_cases as [[-> _] | [-> Hr]]; nia.
Qed.

Lemma nearest_even_ge K : K * D <= N -> K <= nearest_even N D.
Proof.
  intros HK. pose proof (Z.div_mod N D ltac:(lia)) as E.
  pose proof (Z.mod_pos_bound N D HD) as B.
  destruct nearest_even_cases as [[-> _] | [-> Hr]]; nia.
Qed.

(** The result is within one half of [N / D]. *)
Lemma nearest_even_half :
  2 * nearest_even N D * D <= 2 * N + D /\ 2 * N <= 2 * nearest_even N D * D + D.
Proof.
  pose proof (Z.div_mod N D ltac:(lia)) as E.
  pose proof (Z.mod_pos_bound N D HD) as B.
  destruct nearest_even_cases as [[-> Hr] | [-> Hr]]; nia.
Qed.

Lemma nearest_even_exact : N mod D = 0 -> nearest_even N D = N / D.
Proof.
  intros H0. unfold nearest_even. rewrite H0.
  destruct (Z.ltb_spec (2 * 0) D); [reflexivity | lia].
Qed.
End Nearest.

(** *** The scaled fraction has a 53-bit integer part *)

Lemma two52_eq : 2 ^ 52 = two52.
Proof. reflexivity. Qed.

Lemma ulp_expo_spec n d :
  0 < n -> 0 < d ->
  let s := ulp_expo n d in
  two52 * (d * pd s) <= n * pn s /\ n * pn s < two53 * (d * pd s).
Proof.
  intros Hn Hd. unfold ulp_expo.
  pose proof (Z.log2_spec n Hn) as [Ln Un].
  pose proof (Z.log2_spec d Hd) as [Ld Ud].
  pose proof (Z.log2_nonneg n) as An.
  pose proof (Z.log2_nonneg d) as Ad.
  rewrite Z.pow_succ_r in Un, Ud by assumption.
  pose proof (pn_pd_balance (Z.log2 n) (Z.log2 d) An Ad) as Bal.
  rewrite two52_eq in *.
  set (s0 := Z.log2 n - Z.log2 d - 52) in *.
  pose proof (pn_pos s0) as Pn. pose proof (pd_pos s0) as Pd.
  assert (0 < 2 ^ Z.log2 n) as Pa by (apply Z.pow_pos_nonneg; lia).
  assert (0 < 2 ^ Z.log2 d) as Pc by (apply Z.pow_pos_nonneg; lia).
  set (A := 2 ^ Z.log2 n) in *. set (C := 2 ^ Z.log2 d) in *.
  assert (two52 * (C * pd s0) <= n * pn s0) as Lo by (unfold two52 in *; nia).
  assert (n * pn s0 < two53 * (d * pd s0)) as Hi by (unfold two52, two53 in *; nia).
  assert (d * pd s0 < 2 * (C * pd s0)) as Dlt by nia.
  destruct (Z.ltb_spec (n * pn s0) (two52 * (d * pd s0))) as [Small | Big]; cbv zeta.
  - destruct (Z_le_gt_dec s0 0) as [Neg | Pos].
    + rewrite (pn_pred s0 Neg), (pd_of_nonpos (s0 - 1)) by lia.
      rewrite (pd_of_nonpos s0 Neg) in *. unfold two52, two53 in *. lia.
    + rewrite (pn_of_nonneg (s0 - 1)) by lia.
      rewrite (pn_of_nonneg s0) in * by lia.
      replace s0 with ((s0 - 1) + 1) in Small, Lo, Dlt by lia.
      rewrite pd_succ in Small, Lo, Dlt by lia.
      unfold two52, two53 in *. lia.
  - split; assumption.
Qed.

(** *** Rounding does not cross an integer of at most 53 bits *)

Section RoundPos.
Variables n d : Z.
Hypothesis Hn : 0 < n.
Hypothesis Hd : 0 < d.

Lemma round_pos_le W :
  W <= two53 -> n <= W * d ->
  num (round_pos n d) <= W * den (round_pos n d).
Proof.
  intros HW Hle. unfold round_pos, num, den; cbn [mant expo].
  pose proof (ulp_expo_spec n d Hn Hd) as [Lo Hi]; cbv zeta in Lo, Hi.
  set (s := ulp_expo n d) in *.
  pose proof (pn_pos s) as Pn. pose proof (pd_pos s) as Pd.
  destruct (Z_le_gt_dec s 0) as [Neg | Pos].
  - rewrite (pd_of_nonpos s Neg) in *.
    assert (nearest_even (n * pn s) (d * 1) <= W * pn s)
      by (apply nearest_even_le; nia).
    lia.
  - rewrite (pn_of_nonneg s) in * by lia.
    pose proof (pd_ge_2 s ltac:(lia)) as P2.
    assert (pd s = 2 /\ W = two53) as [E2 EW] by (unfold two52, two53 in *; nia).
    assert (nearest_even (n * 1) (d * pd s) <= two52)
      by (apply nearest_even_le; unfold two52, two53 in *; nia).
    unfold two52, two53 in *. lia.
Qed.

Lemma round_pos_ge W :
  W <= two53 -> W * d <= n ->
  W * den (round_pos n d) <= num (round_pos n d).
Proof.
  intros HW Hle. unfold round_pos, num, den; cbn [mant expo].
  pose proof (ulp_expo_spec n d Hn Hd) as [Lo Hi]; cbv zeta in Lo, Hi.
  set (s := ulp_expo n d) in *.
  pose proof (pn_pos s) as Pn. pose proof (pd_pos s) as Pd.
  destruct (Z_le_gt_dec s 0) as [Neg | Pos].
  - rewrite (pd_of_nonpos s Neg) in *.
    assert (W * pn s <= nearest_even (n * pn s) (d * 1))
      by (apply nearest_even_ge; nia).
    lia.
  - rewrite (pn_of_nonneg s) in * by lia.
    pose proof (pd_ge_2 s ltac:(lia)) as P2.
    assert (two52 <= nearest_even (n * 1) (d * pd s))
      by (apply nearest_even_ge; unfold two52, two53 in *; nia).
    unfold two52, two53 in *. nia.
Qed.

Lemma round_pos_mant_nonneg : 0 <= mant (round_pos n d).
Proof.
  unfold round_pos; cbn [mant].
  pose proof (pn_pos (ulp_expo n d)). pose proof (pd_pos (ulp_expo n d)).
  apply nearest_even_ge; nia.
Qed.

(** A quotient of integers below 2^53 never rounds up to the next
    integer. *)
Lemma round_pos_lt_succ :
  n < two53 ->
  num (round_pos n d) < (n / d + 1) * den (round_pos n d).
Proof.
  intros Hlt. unfold round_pos, num, den; cbn [mant expo].
  pose proof (ulp_expo_spec n d Hn Hd) as [Lo Hi]; cbv zeta in Lo, Hi.
  set (s := ulp_expo n d) in *.
  pose proof (pn_pos s) as Pn. pose proof (pd_pos s) as Pd.
  pose proof (Z.div_mod n d ltac:(lia)) as E.
  pose proof (Z.mod_pos_bound n d Hd) as B.
  assert (0 <= n / d) as Q by (apply Z.div_pos; lia).
  destruct (Z_le_gt_dec s 0) as [Neg | Pos].
  - rewrite (pd_of_nonpos s Neg) in *.
    assert (0 < d * 1) as Dn by lia.
    pose proof (nearest_even_half (n * pn s) (d * 1) Dn) as [Up _].
    set (m := nearest_even (n * pn s) (d * 1)) in *.
    destruct (Z.eq_dec s 0) as [-> | Ns].
    + change (pn 0) with 1 in *. unfold two52, two53 in *.
      assert (d = 1) by nia. subst d.
      rewrite Z.div_1_r in *. lia.
    + pose proof (pn_ge_2 s ltac:(lia)) as P2.
      destruct (Z_lt_ge_dec (m * 1) ((n / d + 1) * pn s)) as [|Bad]; [assumption |].
      exfalso.
      assert (2 * pn s * ((n / d + 1) * d - n) <= d) by nia.
      assert (1 <= (n / d + 1) * d - n) by lia.
      assert (2 * pn s <= d) by nia.
      unfold two52, two53 in *. nia.
  - rewrite (pn_of_nonneg s) in * by lia.
    pose proof (pd_ge_2 s ltac:(lia)) as P2.
    exfalso. unfold two52, two53 in *. nia.
Qed.
End RoundPos.

(** [int(a / b)] is the floor of the quotient for [0 <= a < 2^53]. *)
Lemma to_int_div_int a b :
  0 <= a < two53 -> 0 < b -> to_int (div_int a b) = a / b.
Proof.
  intros [Ha Hlt] Hb. unfold to_int, div_int, round.
  destruct (Z.eqb_spec a 0) as [-> | Na].
  - reflexivity.
  - assert (0 < a) as Pa by lia.
    rewrite (Z.abs_eq a), (Z.abs_eq b) by lia.
    rewrite (Z.sgn_pos a), (Z.sgn_pos b) by lia.
    pose proof (round_pos_ge a b Pa Hb (a / b)) as Lo.
    pose proof (round_pos_lt_succ a b Pa Hb Hlt) as Hi.
    pose proof (round_pos_mant_nonneg a b Pa Hb) as Mn.
    pose proof (Z.div_mod a b ltac:(lia)) as E.
    pose proof (Z.mod_pos_bound a b Hb) as B.
    assert (0 <= a / b) as Q by (apply Z.div_pos; lia).
    assert (a / b <= two53) as Qle by nia.
    specialize (Lo Qle ltac:(nia)).
    unfold num, den in *; cbn [mant expo] in *.
    set (f := round_pos a b) in *.
    pose proof (pn_pos (expo f)) as Pn. pose proof (pd_pos (expo f)) as Pd.
    replace (1 * 1 * mant f) with (mant f) by lia.
    rewrite Z.quot_div_nonneg by nia.
    symmetry. apply Z.div_unique with (r := mant f * pd (expo f) - pn (expo f) * (a / b)); nia.
Qed.

(** *** Rounding of non-negative fractions, and the operations *)

Lemma round_le n d W :
  0 <= n -> 0 < d -> W <= two53 -> n <= W * d ->
  num (round n d) <= W * den (round n d).
Proof.
  intros Hn Hd HW Hle. unfold round.
  destruct (Z.eqb_spec n 0) as [-> | Nz].
  - unfold num, den; cbn [mant expo].
    change (pd 0) with 1. change (pn 0) with 1.
    destruct (Z_lt_le_dec W 0); [nia | lia].
  - rewrite (Z.abs_eq n), (Z.abs_eq d), (Z.sgn_pos n), (Z.sgn_pos d) by lia.
    pose proof (round_pos_le n d ltac:(lia) Hd W HW Hle) as H.
    unfold num, den in *; cbn [mant expo] in *. lia.
Qed.

Lemma round_ge n d W :
  0 <= n -> 0 < d -> W <= two53 -> W * d <= n ->
  W * den (round n d) <= num (round n d).
Proof.
  intros Hn Hd HW Hle. unfold round.
  destruct (Z.eqb_spec n 0) as [-> | Nz].
  - unfold num, den; cbn [mant expo].
    change (pd 0) with 1. change (pn 0) with 1.
    destruct (Z_lt_le_dec 0 W); [nia | lia].
  - rewrite (Z.abs_eq n), (Z.abs_eq d), (Z.sgn_pos n), (Z.sgn_pos d) by lia.
    pose proof (round_pos_ge n d ltac:(lia) Hd W HW Hle) as H.
    unfold num, den in *; cbn [mant expo] in *. lia.
Qed.

Lemma den_pos f : 0 < den f.
Proof. apply pn_pos. Qed.

(** Integers of at most 53 bits are floats. *)
Lemma of_int_exact z :
  0 <= z <= two53 -> num (of_int z) = z * den (of_int z).
Proof.
  intros [Hz Hle]. unfold of_int.
  pose proof (round_le z 1 z Hz ltac:(lia) Hle ltac:(lia)).
  pose proof (round_ge z 1 z Hz ltac:(lia) Hle ltac:(lia)).
  lia.
Qed.

(** [int(f)] of a float between two integers lies between them. *)
Lemma to_int_between f lo hi :
  0 <= lo -> lo * den f <= num f -> num f <= hi * den f ->
  lo <= to_int f <= hi.
Proof.
  intros Hlo L U. unfold to_int. pose proof (den_pos f) as P.
  rewrite Z.quot_div_nonneg by nia.
  split.
  - apply Z.div_le_lower_bound; lia.
  - apply Z.div_le_upper_bound; lia.
Qed.

(** The sign of [int(a / b)] for a positive divisor. *)
Lemma to_int_div_int_nonneg a b : 0 <= a -> 0 < b -> 0 <= to_int (div_int a b).
Proof.
  intros Ha Hb. unfold div_int.
  pose proof (round_ge a b 0 Ha Hb ltac:(unfold two53; lia) ltac:(lia)) as H.
  unfold to_int. pose proof (den_pos (round a b)).
  rewrite Z.quot_div_nonneg by lia. apply Z.div_pos; lia.
Qed.

End F64Facts.

(** ** Python lists *)

Section PyList.
Context {A : Type}.
Implicit Types (l : list A) (i j : Z) (x : A).

Lemma py_index_in_range (len : nat) i :
  0 <= i < Z.of_nat len -> py_index len i = Ok (Z.to_nat i).
Proof.
  intros [H0 H1]. unfold py_index.
  destruct (Z.leb_spec 0 i); [| lia].
  destruct (Z.ltb_spec i (Z.of_nat len)); [reflexivity | lia].
Qed.

Lemma py_index_bound (len : nat) i n : py_index len i = Ok n -> (n < len)%nat.
Proof.
  unfold py_index.
  destruct (Z.leb_spec 0 i), (Z.ltb_spec i (Z.of_nat len)); cbn;
    try (intros [= <-]; lia);
    destruct (Z.leb_spec (- Z.of_nat len) i), (Z.ltb_spec i 0); cbn;
    try discriminate; intros [= <-]; lia.
Qed.

Lemma getitem_in_range l i :
  0 <= i < Z.of_nat (length l) -> exists x, getitem l i = Ok x /\ l !! Z.to_nat i = Some x.
Proof.
  intros H. unfold getitem. rewrite py_index_in_range by assumption. cbn.
  destruct (lookup_lt_is_Some_2 l (Z.to_nat i) ltac:(lia)) as [x Hx].
  exists x. rewrite Hx. split; reflexivity.
Qed.

Lemma getitem_lookup l i x :
  0 <= i -> l !! Z.to_nat i = Some x -> getitem l i = Ok x.
Proof.
  intros H0 Hx. pose proof (lookup_lt_Some _ _ _ Hx).
  unfold getitem. rewrite py_index_in_range by lia. cbn. rewrite Hx. reflexivity.
Qed.

Lemma getitem_elem l i x : getitem l i = Ok x -> x ∈ l.
Proof.
  unfold getitem. destruct (py_index (length l) i) as [n |]; cbn; [| discriminate].
  destruct (l !! n) eqn:E; [| discriminate].
  intros [= <-]. eapply list_elem_of_lookup_2; eassumption.
Qed.

Lemma setitem_in_range l i x :
  0 <= i < Z.of_nat (length l) -> setitem l i x = Ok (<[Z.to_nat i := x]> l).
Proof.
  intros H. unfold setitem. rewrite py_index_in_range by assumption. reflexivity.
Qed.

Lemma setitem_inv l i x l' :
  setitem l i x = Ok l' -> exists n, (n < length l)%nat /\ l' = <[n := x]> l.
Proof.
  unfold setitem. destruct (py_index (length l) i) as [n |] eqn:E; cbn; [| discriminate].
  intros [= <-]. exists n. split; [eapply py_index_bound; eassumption | reflexivity].
Qed.

Lemma setitem_length l i x l' : setitem l i x = Ok l' -> length l' = length l.
Proof. intros (n & _ & ->)%setitem_inv. apply length_insert. Qed.

Lemma setitem_Forall (P : A -> Prop) l i x l' :
  Forall P l -> P x -> setitem l i x = Ok l' -> Forall P l'.
Proof. intros Hl Hx (n & _ & ->)%setitem_inv. apply Forall_insert; assumption. Qed.
End PyList.

Lemma range_spec n i : i ∈ range n <-> 0 <= i < n.
Proof. unfold range. rewrite elem_of_seqZ. lia. Qed.

(** ** The buffer is large enough for the diffusion reads *)

Lemma init_buffer_length width height :
  0 < width -> 0 < height ->
  Z.of_nat (length (init_buffer width height)) = width * height + width + 1.
Proof.
  intros Hw Hh. unfold init_buffer. rewrite length_replicate. nia.
Qed.

Lemma for_each_inv {S} (P : S -> Prop) (body : Z -> S -> res S) (l : list Z) :
  (forall i s, i ∈ l -> P s -> exists s', body i s = Ok s' /\ P s') ->
  forall s, P s -> exists s', for_each l body s = Ok s' /\ P s'.
Proof.
  induction l as [| i l IH]; intros Hbody s Hs.
  - exists s. split; [reflexivity | exact Hs].
  - destruct (Hbody i s ltac:(left) Hs) as (s1 & E1 & P1).
    destruct (IH (fun j t Hj => Hbody j t ltac:(right; exact Hj)) s1 P1) as (s2 & E2 & P2).
    exists s2. split; [| exact P2].
    cbn [for_each]. rewrite E1. exact E2.
Qed.

(** The reads and the assignment of iteration [i] succeed on a buffer of
    the allocated length, whatever it holds. *)
Lemma spread_in_bounds width height (b : list Z) i :
  0 < width -> 0 < height ->
  length b = length (init_buffer width height) ->
  0 <= i < width * height ->
  (exists v, spread_value width b i = Ok v) /\
  (exists b', spread width i b = Ok b' /\ length b' = length b).
Proof.
  intros Hw Hh Hlen Hi.
  pose proof (init_buffer_length width height Hw Hh) as L. rewrite <- Hlen in L.
  destruct (getitem_in_range b i ltac:(lia)) as (b0 & G0 & _).
  destruct (getitem_in_range b (i + 1) ltac:(lia)) as (b1 & G1 & _).
  destruct (getitem_in_range b (i + width) ltac:(lia)) as (b2 & G2 & _).
  destruct (getitem_in_range b (i + width + 1) ltac:(lia)) as (b3 & G3 & _).
  assert (spread_value width b i = Ok (F64.to_int (F64.div_int (b0 + b1 + b2 + b3) 4))) as E.
  { unfold spread_value. rewrite G0, G1, G2, G3. reflexivity. }
  split; [eexists; exact E |].
  unfold spread. rewrite E. cbn [mbind res_bind].
  rewrite setitem_in_range by lia.
  eexists. split; [reflexivity | apply length_insert].
Qed.

(** C2: for positive dimensions the buffer holds exactly
    [width*height + width + 1] cells, and on every buffer of this length
    the reads of the diffusion pass stay below it: for every [i] in
    [0, width*height) the four subscripts [i], [i+1], [i+width] and
    [i+width+1] are in range and read a value, so line 42 computes its
    value and assigns it without an IndexError, and the whole pass runs
    to its end and keeps the length. *)
Theorem diffusion_reads_in_bounds (width height : Z) :
  0 < width -> 0 < height ->
  Z.of_nat (length (init_buffer width height)) = width * height + width + 1 /\
  forall b : list Z,
    length b = length (init_buffer width height) ->
    (forall i : Z,
       0 <= i < width * height ->
       Forall (fun j => 0 <= j < Z.of_nat (length b) /\ exists x, getitem b j = Ok x)
              [i; i + 1; i + width; i + width + 1] /\
       (exists v, spread_value width b i = Ok v) /\
       (exists b', spread width i b = Ok b' /\ length b' = length b)) /\
    (exists b', diffuse width height b = Ok b' /\ length b' = length b).
Proof.
  intros Hw Hh. pose proof (init_buffer_length width height Hw Hh) as L.
  split; [exact L |].
  intros b Hb. split.
  - intros i Hi. rewrite <- Hb in L. split.
    + repeat apply Forall_cons_2; try apply Forall_nil_2;
        (split; [lia |]);
        match goal with
        | |- exists x, getitem b ?j = Ok x =>
            destruct (getitem_in_range b j ltac:(lia)) as (x & Hx & _); exists x; exact Hx
        end.
    + apply (spread_in_bounds width height); assumption.
  - unfold diffuse.
    destruct (for_each_inv (fun c : list Z => length c = length b) (spread width)
                (range (width * height))) with (s := b) as (b' & Run & Hlen');
      [| reflexivity | exists b'; split; assumption].
    intros i c Hi%range_spec Hc.
    destruct (spread_in_bounds width height c i Hw Hh ltac:(congruence) Hi)
      as (_ & c' & Hsp & Hl).
    exists c'. split; [exact Hsp | congruence].
Qed.

Lemma diffusion_reads_in_bounds_witness :
  Z.of_nat (length (init_buffer 9 3)) = 9 * 3 + 9 + 1 /\
  forall b : list Z,
    length b = length (init_buffer 9 3) ->
    (forall i : Z,
       0 <= i < 9 * 3 ->
       Forall (fun j => 0 <= j < Z.of_nat (length b) /\ exists x, getitem b j = Ok x)
              [i; i + 1; i + 9; i + 9 + 1] /\
       (exists v, spread_value 9 b i = Ok v) /\
       (exists b', spread 9 i b = Ok b' /\ length b' = length b)) /\
    (exists b', diffuse 9 3 b = Ok b' /\ length b' = length b).
Proof. apply (diffusion_reads_in_bounds 9 3); lia. Defined.

(** ** Colour tiers and glyph ramp *)

(** C4: the colour pair chosen for a heat value is tier 1 on 0..4,
    tier 2 on 5..9, tier 3 on 10..15 and tier 4 above 15; conversely a
    non-negative heat value with a given tier lies in that tier's range,
    so the four ranges neither overlap nor leave a gap. *)
Theorem color_tiers (v : Z) :
  ((0 <= v <= 4 -> color v = 1) /\
   (5 <= v <= 9 -> color v = 2) /\
   (10 <= v <= 15 -> color v = 3) /\
   (15 < v -> color v = 4)) /\
  (0 <= v ->
   (color v = 1 -> 0 <= v <= 4) /\
   (color v = 2 -> 5 <= v <= 9) /\
   (color v = 3 -> 10 <= v <= 15) /\
   (color v = 4 -> 15 < v)) /\
  1 <= color v <= 4.
Proof.
  unfold color.
  destruct (Z.ltb_spec 15 v), (Z.ltb_spec 9 v), (Z.ltb_spec 4 v); lia.
Qed.

(** C7: for a heat value [v >= 0] the subscript into the glyph ramp is
    [min v 9]; it is monotone in the heat and lies in [0, 9]. *)
Theorem ramp_min_monotone (v1 v2 : Z) :
  0 <= v1 -> v1 < v2 ->
  ramp v1 = Z.min v1 9 /\ ramp v2 = Z.min v2 9 /\
  ramp v1 <= ramp v2 /\
  0 <= ramp v1 <= 9 /\ 0 <= ramp v2 <= 9.
Proof.
  intros H1 H2. unfold ramp.
  destruct (Z.ltb_spec 9 v1), (Z.ltb_spec 9 v2); lia.
Qed.

Lemma ramp_min_monotone_witness :
  ramp 7 = Z.min 7 9 /\ ramp 12 = Z.min 12 9 /\
  ramp 7 <= ramp 12 /\
  0 <= ramp 7 <= 9 /\ 0 <= ramp 12 <= 9.
Proof. apply (ramp_min_monotone 7 12); lia. Defined.

(** ** Heat injection *)

Lemma inject_count_floor width :
  0 <= width < F64.two53 -> inject_count width = width / 9.
Proof. intros H. unfold inject_count. apply F64Facts.to_int_div_int; lia. Qed.

Lemma exact_53_num k : F64.num (F64.exact k (-53)) = k.
Proof. unfold F64.num, F64.exact; cbn [F64.mant F64.expo]. change (F64.pd (-53)) with 1. lia. Qed.

Lemma exact_53_den k : F64.den (F64.exact k (-53)) = F64.two53.
Proof. reflexivity. Qed.

(** The product [random.random() * width] lies in [0, width]. *)
Lemma draw_times_width width k :
  0 < width <= F64.two53 -> 0 <= k < F64.two53 ->
  let p := F64.mul (F64.exact k (-53)) (F64.of_int width) in
  0 <= F64.num p <= width * F64.den p.
Proof.
  intros Hw Hk p. subst p. unfold F64.mul.
  rewrite exact_53_num, exact_53_den.
  rewrite (F64Facts.of_int_exact width) by lia.
  pose proof (F64Facts.den_pos (F64.of_int width)) as Pw.
  set (dw := F64.den (F64.of_int width)) in *.
  assert (0 <= k * (width * dw)) as Hn by nia.
  assert (0 < F64.two53 * dw) as Hd by (unfold F64.two53; lia).
  split.
  - pose proof (F64Facts.round_ge _ _ 0 Hn Hd ltac:(unfold F64.two53; lia) ltac:(lia)). lia.
  - apply F64Facts.round_le; [assumption | assumption | lia | nia].
Qed.

(** The subscript of an injection: the bottom row, or the first slack
    cell just behind it. *)
Lemma inject_index_range width height k :
  0 < width -> 0 < height -> width * height < F64.two53 ->
  0 <= k < F64.two53 ->
  width * (height - 1) <= inject_index width height k <= width * (height - 1) + width.
Proof.
  intros Hw Hh Hsz Hk. unfold inject_index.
  assert (0 <= width * (height - 1)) as Hb by nia.
  assert (width <= width * height) as Hwle by nia.
  pose proof (draw_times_width width k ltac:(lia) Hk) as [P0 P1]; cbv zeta in P0, P1.
  set (p := F64.mul (F64.exact k (-53)) (F64.of_int width)) in *.
  pose proof (F64Facts.of_int_exact (width * (height - 1)) ltac:(nia)) as Eb.
  set (fb := F64.of_int (width * (height - 1))) in *.
  pose proof (F64Facts.den_pos p) as Pp. pose proof (F64Facts.den_pos fb) as Pb.
  unfold F64.add. rewrite Eb.
  set (base := width * (height - 1)) in *.
  assert (0 < F64.den p * F64.den fb) as Hd by nia.
  assert (0 <= F64.num p * F64.den fb + base * F64.den fb * F64.den p) as Hn by nia.
  apply F64Facts.to_int_between; [assumption | |].
  - apply F64Facts.round_ge; [assumption | assumption | nia | nia].
  - apply F64Facts.round_le; [assumption | assumption | nia | nia].
Qed.

Lemma inject_once_spec width height k (b : list Z) :
  0 < width -> 0 < height -> width * height < F64.two53 ->
  0 <= k < F64.two53 ->
  length b = length (init_buffer width height) ->
  inject_once width height k b
  = Ok (<[Z.to_nat (inject_index width height k) := 65]> b).
Proof.
  intros Hw Hh Hsz Hk Hlen. unfold inject_once.
  pose proof (inject_index_range width height k Hw Hh Hsz Hk).
  pose proof (init_buffer_length width height Hw Hh).
  apply setitem_in_range. nia.
Qed.

(** Whether one of [n] injections from draw [t] on lands on cell [c]. *)
Lemma injected_dec e width height n t (c : nat) :
  (exists j, (j < n)%nat /\
     c = Z.to_nat (inject_index width height (rand e (t + j)%nat))) \/
  (forall j, (j < n)%nat ->
     c <> Z.to_nat (inject_index width height (rand e (t + j)%nat))).
Proof.
  induction n as [| n [(j & Hj & E) | No]].
  - right. intros j Hj. lia.
  - left. exists j. split; [lia | exact E].
  - destruct (Nat.eq_dec c (Z.to_nat (inject_index width height (rand e (t + n)%nat))))
      as [E | Ne].
    + left. exists n. split; [lia | exact E].
    + right. intros j Hj. destruct (Nat.eq_dec j n) as [-> | Hn]; [exact Ne |].
      apply No. lia.
Qed.

(** The cells after [n] injections from draw [t] on: [65] where an
    injection landed, the old value elsewhere. *)
Lemma inject_spec e width height n : forall t (b : list Z),
  0 < width -> 0 < height -> width * height < F64.two53 ->
  (forall j, 0 <= rand e j < F64.two53) ->
  length b = length (init_buffer width height) ->
  exists b',
    inject e width height n t b = Ok (b', (t + n)%nat) /\
    length b' = length b /\
    (forall j, (j < n)%nat ->
       b' !! Z.to_nat (inject_index width height (rand e (t + j)%nat)) = Some 65) /\
    (forall c : nat,
       (forall j, (j < n)%nat ->
          c <> Z.to_nat (inject_index width height (rand e (t + j)%nat))) ->
       b' !! c = b !! c).
Proof.
  induction n as [| n IH]; intros t b Hw Hh Hsz Hr Hlen.
  - exists b. cbn. rewrite Nat.add_0_r.
    split; [reflexivity |]. split; [reflexivity |].
    split; [intros j Hj; lia | reflexivity].
  - cbn [inject]. rewrite (inject_once_spec width height (rand e t) b) by auto.
    cbn.
    set (b1 := <[Z.to_nat (inject_index width height (rand e t)) := 65]> b).
    assert (length b1 = length b) as L1 by apply length_insert.
    destruct (IH (S t) b1 Hw Hh Hsz Hr ltac:(congruence)) as (b' & Run & L & Hit & Miss).
    exists b'. replace (t + S n)%nat with (S t + n)%nat by lia.
    split; [exact Run |]. split; [congruence |]. split.
    + intros j Hj. destruct j as [| j].
      * rewrite Nat.add_0_r.
        destruct (injected_dec e width height n (S t) (Z.to_nat (inject_index width height (rand e t))))
          as [(j' & Hj' & E) | No].
        -- rewrite E. apply Hit. exact Hj'.
        -- rewrite (Miss _ No). subst b1. apply list_lookup_insert_eq.
           pose proof (inject_index_range width height (rand e t) Hw Hh Hsz (Hr t)).
           pose proof (init_buffer_length width height Hw Hh). nia.
      * replace (t + S j)%nat with (S t + j)%nat by lia. apply Hit. lia.
    + intros c Hc. rewrite Miss.
      * subst b1. apply list_lookup_insert_ne.
        specialize (Hc 0%nat ltac:(lia)). rewrite Nat.add_0_r in Hc. congruence.
      * intros j Hj. specialize (Hc (S j) ltac:(lia)).
        replace (t + S j)%nat with (S t + j)%nat in Hc by lia. exact Hc.
Qed.

(** X1.  The injection loop of a frame, with the terminal below 2^53 cells:
    it runs exactly [floor(width / 9)] times, consuming that many random
    draws; each injection writes [65] to one cell whose subscript lies
    in [width*(height-1), width*(height-1) + width], the upper end
    included; every cell no injection landed on keeps its value, and the
    buffer keeps its length. *)
Theorem injection_per_frame (e : env) (width height : Z) (t : nat) (b : list Z) :
  0 < width -> 0 < height -> width * height < F64.two53 ->
  (forall j, 0 <= rand e j < F64.two53) ->
  length b = length (init_buffer width height) ->
  let n := Z.to_nat (width / 9) in
  exists b',
    inject e width height (Z.to_nat (inject_count width)) t b = Ok (b', (t + n)%nat) /\
    length b' = length b /\
    (forall j, (j < n)%nat ->
       let idx := inject_index width height (rand e (t + j)%nat) in
       width * (height - 1) <= idx <= width * (height - 1) + width /\
       b' !! Z.to_nat idx = Some 65) /\
    (forall c : nat,
       (forall j, (j < n)%nat ->
          c <> Z.to_nat (inject_index width height (rand e (t + j)%nat))) ->
       b' !! c = b !! c).
Proof.
  intros Hw Hh Hsz Hr Hlen n.
  rewrite inject_count_floor by nia. fold n.
  destruct (inject_spec e width height n t b Hw Hh Hsz Hr Hlen)
    as (b' & Run & L & Hit & Miss).
  exists b'. split; [exact Run |]. split; [exact L |]. split; [| exact Miss].
  intros j Hj idx. split; [| apply Hit; exact Hj].
  apply inject_index_range; auto.
Qed.

Lemma injection_per_frame_witness :
  exists b',
    inject idle_env 80 24 (Z.to_nat (inject_count 80)) 0 (init_buffer 80 24)
    = Ok (b', (0 + Z.to_nat (80 / 9))%nat) /\
    length b' = length (init_buffer 80 24) /\
    (forall j, (j < Z.to_nat (80 / 9))%nat ->
       let idx := inject_index 80 24 (rand idle_env (0 + j)%nat) in
       80 * (24 - 1) <= idx <= 80 * (24 - 1) + 80 /\
       b' !! Z.to_nat idx = Some 65) /\
    (forall c : nat,
       (forall j, (j < Z.to_nat (80 / 9))%nat ->
          c <> Z.to_nat (inject_index 80 24 (rand idle_env (0 + j)%nat))) ->
       b' !! c = init_buffer 80 24 !! c).
Proof.
  apply (injection_per_frame idle_env 80 24 0 (init_buffer 80 24)).
  - lia.
  - lia.
  - reflexivity.
  - intros j. cbn. unfold F64.two53. lia.
  - reflexivity.
Defined.

(** C5: each injection is to set a cell of the bottom row, a subscript
    in [width*(height-1), width*(height-1) + width).  The code does not
    keep to it: for the largest draw, [1 - 2^-53], on an 80x24 terminal
    the product rounds to [80 - 2^-46], the sum with [1840] rounds to
    [1920], and the cell written is [b[80*24]], the first slack cell
    behind the bottom row. *)
Theorem injection_reaches_slack :
  0 <= 2 ^ 53 - 1 < 2 ^ 53 /\
  inject_index 80 24 (2 ^ 53 - 1) = 80 * 24 /\
  ~ (80 * (24 - 1) <= inject_index 80 24 (2 ^ 53 - 1) < 80 * (24 - 1) + 80) /\
  inject_once 80 24 (2 ^ 53 - 1) (init_buffer 80 24)
  = Ok (<[Z.to_nat (80 * 24) := 65]> (init_buffer 80 24)).
Proof.
  assert (inject_index 80 24 (2 ^ 53 - 1) = 1920) as E by (vm_compute; reflexivity).
  rewrite E. split; [| split; [| split]].
  - change (2 ^ 53) with 9007199254740992. lia.
  - reflexivity.
  - lia.
  - vm_compute. reflexivity.
Qed.

(** ** Heat stays within [0, 65] *)

Lemma spread_value_inv width (b : list Z) i v :
  spread_value width b i = Ok v ->
  exists b0 b1 b2 b3,
    getitem b i = Ok b0 /\ getitem b (i + 1) = Ok b1 /\
    getitem b (i + width) = Ok b2 /\ getitem b (i + width + 1) = Ok b3 /\
    v = F64.to_int (F64.div_int (b0 + b1 + b2 + b3) 4).
Proof.
  unfold spread_value.
  destruct (getitem b i) as [b0 |]; cbn; [| discriminate].
  destruct (getitem b (i + 1)) as [b1 |]; cbn; [| discriminate].
  destruct (getitem b (i + width)) as [b2 |]; cbn; [| discriminate].
  destruct (getitem b (i + width + 1)) as [b3 |]; cbn; [| discriminate].
  unfold int_truediv. cbn. intros [= <-].
  exists b0, b1, b2, b3. repeat split.
Qed.

Lemma spread_inv width i (b b' : list Z) :
  spread width i b = Ok b' ->
  exists v, spread_value width b i = Ok v /\ setitem b i v = Ok b'.
Proof.
  unfold spread. destruct (spread_value width b i) as [v |]; cbn; [| discriminate].
  intros H. exists v. split; [reflexivity | exact H].
Qed.

(** The mean of four heats in [0, 65], truncated, is at most the largest
    of them. *)
Lemma mean4_le_max b0 b1 b2 b3 :
  0 <= b0 <= 65 -> 0 <= b1 <= 65 -> 0 <= b2 <= 65 -> 0 <= b3 <= 65 ->
  let v := F64.to_int (F64.div_int (b0 + b1 + b2 + b3) 4) in
  v = (b0 + b1 + b2 + b3) / 4 /\
  0 <= v <= Z.max (Z.max b0 b1) (Z.max b2 b3).
Proof.
  intros H0 H1 H2 H3 v. subst v.
  rewrite F64Facts.to_int_div_int by (unfold F64.two53; lia).
  split; [reflexivity |]. split.
  - apply Z.div_pos; lia.
  - apply Z.div_le_upper_bound; lia.
Qed.

Lemma reach_length width height (b : list Z) :
  reach width height b -> length b = length (init_buffer width height).
Proof.
  induction 1 as [| b k b' _ IH Hi | b i b' _ IH Hs].
  - reflexivity.
  - unfold inject_once in Hi. rewrite (setitem_length _ _ _ _ Hi). exact IH.
  - apply spread_inv in Hs as (v & _ & Hs).
    rewrite (setitem_length _ _ _ _ Hs). exact IH.
Qed.

Lemma reach_range width height (b : list Z) :
  reach width height b -> Forall (fun v => 0 <= v <= 65) b.
Proof.
  induction 1 as [| b k b' _ IH Hi | b i b' _ IH Hs].
  - unfold init_buffer. apply Forall_replicate. lia.
  - eapply setitem_Forall; [exact IH | | exact Hi]. cbn; lia.
  - apply spread_inv in Hs as (v & Hv & Hs).
    eapply setitem_Forall; [exact IH | | exact Hs].
    apply spread_value_inv in Hv as (b0 & b1 & b2 & b3 & G0 & G1 & G2 & G3 & ->).
    rewrite Forall_forall in IH.
    pose proof (IH _ (getitem_elem _ _ _ G0)).
    pose proof (IH _ (getitem_elem _ _ _ G1)).
    pose proof (IH _ (getitem_elem _ _ _ G2)).
    pose proof (IH _ (getitem_elem _ _ _ G3)).
    pose proof (mean4_le_max b0 b1 b2 b3) as M. cbv zeta in M. lia.
Qed.

(** C6: every buffer the program can hold, starting from the all-zero
    buffer and changed only by injection writes and by the assignments
    of the diffusion pass, has non-negative entries only. *)
Theorem heat_nonnegative (width height : Z) (b : list Z) :
  reach width height b -> Forall (fun v => 0 <= v) b.
Proof.
  induction 1 as [| b k b' _ IH Hi | b i b' _ IH Hs].
  - unfold init_buffer. apply Forall_replicate. lia.
  - eapply setitem_Forall; [exact IH | | exact Hi]. cbn; lia.
  - apply spread_inv in Hs as (v & Hv & Hs).
    eapply setitem_Forall; [exact IH | | exact Hs].
    apply spread_value_inv in Hv as (b0 & b1 & b2 & b3 & G0 & G1 & G2 & G3 & ->).
    rewrite Forall_forall in IH.
    pose proof (IH _ (getitem_elem _ _ _ G0)).
    pose proof (IH _ (getitem_elem _ _ _ G1)).
    pose proof (IH _ (getitem_elem _ _ _ G2)).
    pose proof (IH _ (getitem_elem _ _ _ G3)).
    apply F64Facts.to_int_div_int_nonneg; lia.
Qed.

Lemma heat_nonnegative_witness :
  reach 9 3 (<[19%nat := 16]> (<[20%nat := 65]> (init_buffer 9 3))) /\
  Forall (fun v => 0 <= v) (<[19%nat := 16]> (<[20%nat := 65]> (init_buffer 9 3))).
Proof.
  assert (reach 9 3 (<[19%nat := 16]> (<[20%nat := 65]> (init_buffer 9 3)))) as R.
  { eapply (reach_spread 9 3 _ 19).
    - eapply (reach_inject 9 3 _ (2 ^ 51)); [apply reach_init |].
      vm_compute. reflexivity.
    - vm_compute. reflexivity. }
  split; [exact R |].
  apply (heat_nonnegative 9 3 _ R).
Defined.

(** C9: no reachable buffer holds a value above 65, and the value the
    diffusion pass assigns to a cell of such a buffer is the floor of the
    mean of the four cells it reads, which is at most their maximum. *)
Theorem heat_at_most_65 (width height : Z) (b : list Z) :
  reach width height b ->
  Forall (fun v => v <= 65) b /\
  forall i v, spread_value width b i = Ok v ->
    exists b0 b1 b2 b3,
      getitem b i = Ok b0 /\ getitem b (i + 1) = Ok b1 /\
      getitem b (i + width) = Ok b2 /\ getitem b (i + width + 1) = Ok b3 /\
      v = (b0 + b1 + b2 + b3) / 4 /\
      v <= Z.max (Z.max b0 b1) (Z.max b2 b3) /\
      v <= 65.
Proof.
  intros R. pose proof (reach_range width height b R) as Rg.
  split.
  - eapply Forall_impl; [exact Rg |]. cbn. intros v Hv. lia.
  - intros i v Hv.
    apply spread_value_inv in Hv as (b0 & b1 & b2 & b3 & G0 & G1 & G2 & G3 & ->).
    rewrite Forall_forall in Rg.
    pose proof (Rg _ (getitem_elem _ _ _ G0)).
    pose proof (Rg _ (getitem_elem _ _ _ G1)).
    pose proof (Rg _ (getitem_elem _ _ _ G2)).
    pose proof (Rg _ (getitem_elem _ _ _ G3)).
    pose proof (mean4_le_max b0 b1 b2 b3) as M. cbv zeta in M.
    exists b0, b1, b2, b3. repeat split; try assumption; lia.
Qed.

Lemma heat_at_most_65_witness :
  reach 9 3 (<[20%nat := 65]> (init_buffer 9 3)) /\
  Forall (fun v => v <= 65) (<[20%nat := 65]> (init_buffer 9 3)) /\
  forall i v, spread_value 9 (<[20%nat := 65]> (init_buffer 9 3)) i = Ok v ->
    exists b0 b1 b2 b3,
      getitem (<[20%nat := 65]> (init_buffer 9 3)) i = Ok b0 /\
      getitem (<[20%nat := 65]> (init_buffer 9 3)) (i + 1) = Ok b1 /\
      getitem (<[20%nat := 65]> (init_buffer 9 3)) (i + 9) = Ok b2 /\
      getitem (<[20%nat := 65]> (init_buffer 9 3)) (i + 9 + 1) = Ok b3 /\
      v = (b0 + b1 + b2 + b3) / 4 /\
      v <= Z.max (Z.max b0 b1) (Z.max b2 b3) /\
      v <= 65.
Proof.
  assert (reach 9 3 (<[20%nat := 65]> (init_buffer 9 3))) as R.
  { eapply (reach_inject 9 3 _ (2 ^ 51)); [apply reach_init |].
    vm_compute. reflexivity. }
  split; [exact R |].
  apply (heat_at_most_65 9 3 _ R).
Defined.

(** ** The diffusion pass reads no cell it has already written *)

Lemma setitem_nonneg_inv {A} (l : list A) i x l' :
  0 <= i -> setitem l i x = Ok l' ->
  i < Z.of_nat (length l) /\ l' = <[Z.to_nat i := x]> l.
Proof.
  intros H0. unfold setitem, py_index.
  destruct (Z.leb_spec 0 i); [| lia].
  destruct (Z.ltb_spec i (Z.of_nat (length l))); cbn.
  - intros [= <-]. split; [assumption | reflexivity].
  - destruct (Z.leb_spec (- Z.of_nat (length l)) i), (Z.ltb_spec i 0); cbn;
      try discriminate; lia.
Qed.

(** Two buffers that agree from position [i] on give the same reads at
    every subscript [j >= i]. *)
Lemma getitem_agree (cur b : list Z) i j :
  length cur = length b ->
  (forall n, (Z.to_nat i <= n)%nat -> cur !! n = b !! n) ->
  0 <= i <= j ->
  getitem cur j = getitem b j.
Proof.
  intros Hlen Hag Hij. unfold getitem. rewrite Hlen.
  unfold py_index.
  destruct (Z.leb_spec 0 j); [| lia].
  destruct (Z.ltb_spec j (Z.of_nat (length b))); cbn.
  - rewrite Hag by lia. reflexivity.
  - destruct (Z.leb_spec (- Z.of_nat (length b)) j), (Z.ltb_spec j 0); cbn;
      try reflexivity; lia.
Qed.

Lemma spread_value_agree width (cur b : list Z) i :
  0 <= width -> 0 <= i ->
  length cur = length b ->
  (forall n, (Z.to_nat i <= n)%nat -> cur !! n = b !! n) ->
  spread_value width cur i = spread_value width b i.
Proof.
  intros Hw Hi Hlen Hag. unfold spread_value.
  rewrite (getitem_agree cur b i i), (getitem_agree cur b i (i + 1)),
    (getitem_agree cur b i (i + width)), (getitem_agree cur b i (i + width + 1))
    by (assumption || lia).
  reflexivity.
Qed.

(** In-place and snapshot passes coincide on every stretch of
    subscripts [i, i+1, ..., i+k-1], once they agree on the cells from
    [i] on. *)
Lemma passes_agree_from width (b : list Z) (k : nat) : forall i (cur : list Z),
  0 <= width -> 0 <= i ->
  length cur = length b ->
  (forall n, (Z.to_nat i <= n)%nat -> cur !! n = b !! n) ->
  for_each (seqZ i (Z.of_nat k)) (spread width) cur
  = for_each (seqZ i (Z.of_nat k))
      (fun i acc => v ← spread_value width b i; setitem acc i v) cur.
Proof.
  induction k as [| k IH]; intros i cur Hw Hi Hlen Hag.
  - reflexivity.
  - rewrite seqZ_cons by lia.
    replace (Z.pred (Z.of_nat (S k))) with (Z.of_nat k) by lia.
    cbn [for_each].
    change (spread width i cur) with (v ← spread_value width cur i; setitem cur i v).
    rewrite (spread_value_agree width cur b i Hw Hi Hlen Hag).
    destruct (spread_value width b i) as [v | x]; cbn; [| reflexivity].
    destruct (setitem cur i v) as [cur' | x] eqn:Hset; cbn; [| reflexivity].
    apply setitem_nonneg_inv in Hset as [_ ->]; [| assumption].
    apply IH; [assumption | lia | |].
    + rewrite length_insert. exact Hlen.
    + intros n Hn. rewrite list_lookup_insert_ne by lia. apply Hag. lia.
Qed.

Lemma diffuse_is_snapshot width height (b : list Z) :
  0 <= width -> diffuse width height b = diffuse_snapshot width height b.
Proof.
  intros Hw. unfold diffuse, diffuse_snapshot, range.
  destruct (Z_le_gt_dec (width * height) 0) as [Neg | Pos].
  - rewrite seqZ_nil by assumption. reflexivity.
  - replace (width * height) with (Z.of_nat (Z.to_nat (width * height))) by lia.
    apply passes_agree_from; [assumption | lia | reflexivity | reflexivity].
Qed.

Lemma spread_cell_eq e width height i (b : list Z) (sc : list draw) :
  spread_cell e width height i (b, sc)
  = b' ← spread width i b; sc' ← render e width height i b' sc; Ok (b', sc').
Proof. reflexivity. Qed.

(** The buffer part of the loop of [main] is [diffuse]. *)
Lemma spread_cell_buffer e width height (l : list Z) : forall b sc b' sc',
  for_each l (spread_cell e width height) (b, sc) = Ok (b', sc') ->
  for_each l (spread width) b = Ok b'.
Proof.
  induction l as [| i l IH]; intros b sc b' sc'; cbn [for_each].
  - intros H. injection H as <- _. reflexivity.
  - rewrite spread_cell_eq.
    destruct (spread width i b) as [b1 |]; cbn; [| discriminate].
    destruct (render e width height i b1 sc) as [sc1 |]; cbn; [| discriminate].
    apply IH.
Qed.

(** C1 (as the code has it): update [i] reads the cells [i], [i+1],
    [i+width] and [i+width+1] only, and the pass has written none of
    them yet, so the in-place pass in increasing order gives, on every
    buffer, the result (or the exception) of the pass computed from a
    snapshot of the values before the pass. *)
Theorem inplace_pass_is_snapshot_pass (width height : Z) (b : list Z) :
  0 < width -> 0 < height ->
  diffuse width height b = diffuse_snapshot width height b /\
  forall e sc b' sc',
    for_each (range (width * height)) (spread_cell e width height) (b, sc) = Ok (b', sc') ->
    diffuse_snapshot width height b = Ok b'.
Proof.
  intros Hw Hh. split.
  - apply diffuse_is_snapshot. lia.
  - intros e sc b' sc' Run.
    rewrite <- diffuse_is_snapshot by lia.
    eapply spread_cell_buffer. exact Run.
Qed.

Lemma inplace_pass_is_snapshot_pass_witness :
  diffuse 9 3 (<[20%nat := 65]> (init_buffer 9 3))
  = diffuse_snapshot 9 3 (<[20%nat := 65]> (init_buffer 9 3)) /\
  forall e sc b' sc',
    for_each (range (9 * 3)) (spread_cell e 9 3) (<[20%nat := 65]> (init_buffer 9 3), sc)
    = Ok (b', sc') ->
    diffuse_snapshot 9 3 (<[20%nat := 65]> (init_buffer 9 3)) = Ok b'.
Proof. apply (inplace_pass_is_snapshot_pass 9 3); lia. Defined.

(** C1 as stated fails: no terminal size and no buffer make the two
    passes differ. *)
Lemma no_buffer_separates_passes :
  ~ exists (width height : Z) (b : list Z),
      0 < width /\ 0 < height /\
      diffuse width height b <> diffuse_snapshot width height b.
Proof.
  intros (width & height & b & Hw & _ & Hne).
  apply Hne. apply diffuse_is_snapshot. lia.
Qed.

(** ** Drawing a cell *)

Lemma ramp_glyph v :
  0 <= v -> exists g, getitem char (ramp v) = Ok g.
Proof.
  intros Hv.
  destruct (getitem_in_range char (ramp v)) as (g & Hg & _).
  - unfold ramp. destruct (Z.ltb_spec 9 v); cbn; lia.
  - exists g. exact Hg.
Qed.

Lemma int_truediv_floor a b :
  0 <= a < F64.two53 -> 0 < b -> int_truediv a b = Ok (a / b).
Proof.
  intros Ha Hb. unfold int_truediv.
  destruct (Z.eqb_spec b 0); [lia |].
  rewrite F64Facts.to_int_div_int by assumption. reflexivity.
Qed.

Lemma render_spec e width height i (b : list Z) sc v :
  0 < width -> 0 < height -> width * height < F64.two53 ->
  0 <= i < width * height ->
  getitem b i = Ok v -> 0 <= v ->
  exists g,
    getitem char (ramp v) = Ok g /\
    i / width < height /\ 0 <= i `mod` width < width /\
    render e width height i b sc
    = Ok (if (i <? width * height - 1) && negb (addstr_err e (i / width) (i `mod` width))
          then sc ++ [mkdraw (i / width) (i `mod` width) g (color v) true]
          else sc).
Proof.
  intros Hw Hh Hsz Hi Hget Hv.
  destruct (ramp_glyph v Hv) as (g & Hg). exists g.
  assert (i / width < height) as Hrow by (apply Z.div_lt_upper_bound; lia).
  pose proof (Z.mod_pos_bound i width Hw) as Hcol.
  split; [exact Hg |]. split; [exact Hrow |]. split; [exact Hcol |].
  unfold render. rewrite Hget. cbn.
  destruct (Z.ltb_spec i (width * height - 1)); cbn; [| reflexivity].
  rewrite int_truediv_floor by lia. cbn.
  destruct (Z.ltb_spec (i / width) height); [| lia].
  destruct (Z.ltb_spec (i `mod` width) width); [| lia].
  cbn. rewrite Hg. cbn. unfold addstr. cbn.
  destruct (addstr_err e (i / width) (i `mod` width)); reflexivity.
Qed.

(** C3 (as the code has it): for a cell [i] in [0, width*height) with
    non-negative heat, [(row, col) = (i div width, i mod width)] always
    satisfies [row < height] and [col < width], so that guard never
    skips a cell; the glyph is drawn at [(row, col)], bold, in the
    colour of the heat, exactly when [i < width*height - 1], the last
    cell being left out; and a draw the terminal refuses leaves the
    screen as it was, the loop body still returning normally. *)
Theorem cell_drawn_unless_last (e : env) (width height i : Z) (b : list Z)
    (sc : list draw) (v : Z) :
  0 < width -> 0 < height -> width * height < F64.two53 ->
  0 <= i < width * height ->
  getitem b i = Ok v -> 0 <= v ->
  int_truediv i width = Ok (i / width) /\
  ~ (i / width >= height \/ i `mod` width >= width) /\
  exists g,
    getitem char (ramp v) = Ok g /\
    render e width height i b sc
    = Ok (if i <? width * height - 1
          then if addstr_err e (i / width) (i `mod` width)
               then sc
               else sc ++ [mkdraw (i / width) (i `mod` width) g (color v) true]
          else sc).
Proof.
  intros Hw Hh Hsz Hi Hget Hv.
  destruct (render_spec e width height i b sc v Hw Hh Hsz Hi Hget Hv)
    as (g & Hg & Hrow & Hcol & Hr).
  split; [apply int_truediv_floor; lia |].
  split; [lia |].
  exists g. split; [exact Hg |]. rewrite Hr.
  destruct (i <? width * height - 1), (addstr_err e (i / width) (i `mod` width));
    reflexivity.
Qed.

Lemma cell_drawn_unless_last_witness :
  int_truediv 10 9 = Ok (10 / 9) /\
  ~ (10 / 9 >= 3 \/ 10 `mod` 9 >= 9) /\
  exists g,
    getitem char (ramp 16) = Ok g /\
    render idle_env 9 3 10 (<[10%nat := 16]> (init_buffer 9 3)) []
    = Ok (if 10 <? 9 * 3 - 1
          then if addstr_err idle_env (10 / 9) (10 `mod` 9)
               then []
               else [] ++ [mkdraw (10 / 9) (10 `mod` 9) g (color 16) true]
          else []).
Proof.
  apply (cell_drawn_unless_last idle_env 9 3 10 (<[10%nat := 16]> (init_buffer 9 3)) [] 16).
  - lia.
  - lia.
  - reflexivity.
  - lia.
  - reflexivity.
  - lia.
Defined.

(** C3 as stated fails: on a 2x2 terminal that accepts every draw, cell
    3 has [row = 1 < 2] and [col = 1 < 2] and yet nothing is drawn for
    it. *)
Lemma last_cell_not_drawn :
  0 <= 3 < 2 * 2 /\
  int_truediv 3 2 = Ok 1 /\ 3 `mod` 2 = 1 /\
  ~ (1 >= 2 \/ 1 >= 2) /\
  addstr_err idle_env 1 1 = false /\
  render idle_env 2 2 3 (init_buffer 2 2) [] = Ok [].
Proof.
  repeat split; try lia; reflexivity.
Qed.

(** ** A frame never fails *)

Lemma buffer_ok_read width height (b : list Z) j :
  0 < width -> 0 < height -> buffer_ok width height b ->
  0 <= j < width * height + width + 1 ->
  exists x, getitem b j = Ok x /\ 0 <= x <= 65.
Proof.
  intros Hw Hh [Hlen Hrg] Hj.
  pose proof (init_buffer_length width height Hw Hh) as L. rewrite <- Hlen in L.
  destruct (getitem_in_range b j ltac:(lia)) as (x & Hx & Hl).
  exists x. split; [exact Hx |].
  rewrite Forall_lookup in Hrg. exact (Hrg _ _ Hl).
Qed.

Lemma spread_ok width height i (b : list Z) :
  0 < width -> 0 < height -> buffer_ok width height b ->
  0 <= i < width * height ->
  exists v, spread width i b = Ok (<[Z.to_nat i := v]> b) /\ 0 <= v <= 65.
Proof.
  intros Hw Hh Hb Hi.
  destruct (buffer_ok_read width height b i Hw Hh Hb ltac:(lia)) as (b0 & G0 & R0).
  destruct (buffer_ok_read width height b (i + 1) Hw Hh Hb ltac:(lia)) as (b1 & G1 & R1).
  destruct (buffer_ok_read width height b (i + width) Hw Hh Hb ltac:(lia)) as (b2 & G2 & R2).
  destruct (buffer_ok_read width height b (i + width + 1) Hw Hh Hb ltac:(lia))
    as (b3 & G3 & R3).
  pose proof (mean4_le_max b0 b1 b2 b3 R0 R1 R2 R3) as M; cbv zeta in M.
  exists (F64.to_int (F64.div_int (b0 + b1 + b2 + b3) 4)).
  split; [| lia].
  unfold spread, spread_value. rewrite G0, G1, G2, G3. cbn.
  apply setitem_in_range.
  destruct Hb as [Hlen _].
  pose proof (init_buffer_length width height Hw Hh) as L. rewrite <- Hlen in L. lia.
Qed.

Lemma buffer_ok_insert width height (b : list Z) (n : nat) v :
  buffer_ok width height b -> 0 <= v <= 65 -> buffer_ok width height (<[n := v]> b).
Proof.
  intros [Hlen Hrg] Hv. split.
  - rewrite length_insert. exact Hlen.
  - apply Forall_insert; assumption.
Qed.

Lemma spread_cell_ok e width height i (b : list Z) (sc : list draw) :
  0 < width -> 0 < height -> width * height < F64.two53 ->
  buffer_ok width height b ->
  0 <= i < width * height ->
  exists b' sc',
    spread_cell e width height i (b, sc) = Ok (b', sc') /\ buffer_ok width height b'.
Proof.
  intros Hw Hh Hsz Hb Hi.
  destruct (spread_ok width height i b Hw Hh Hb Hi) as (v & Hs & Hv).
  pose proof (buffer_ok_insert width height b (Z.to_nat i) v Hb Hv) as Hb'.
  set (b' := <[Z.to_nat i := v]> b) in *.
  assert (getitem b' i = Ok v) as Hget.
  { apply getitem_lookup; [lia |]. subst b'. apply list_lookup_insert_eq.
    destruct Hb as [Hlen _].
    pose proof (init_buffer_length width height Hw Hh) as L. rewrite <- Hlen in L. lia. }
  destruct (render_spec e width height i b' sc v Hw Hh Hsz Hi Hget ltac:(lia))
    as (g & _ & _ & _ & Hr).
  eexists b', _. split; [| exact Hb'].
  rewrite spread_cell_eq, Hs. cbn. rewrite Hr. reflexivity.
Qed.

Lemma inject_ok e width height n : forall t (b : list Z),
  0 < width -> 0 < height -> width * height < F64.two53 ->
  (forall j, 0 <= rand e j < F64.two53) ->
  buffer_ok width height b ->
  exists b', inject e width height n t b = Ok (b', (t + n)%nat) /\
             buffer_ok width height b'.
Proof.
  induction n as [| n IH]; intros t b Hw Hh Hsz Hr Hb.
  - exists b. cbn. rewrite Nat.add_0_r. split; [reflexivity | exact Hb].
  - cbn [inject].
    rewrite (inject_once_spec width height (rand e t) b Hw Hh Hsz (Hr t) (proj1 Hb)).
    cbn.
    set (b1 := <[Z.to_nat (inject_index width height (rand e t)) := 65]> b).
    assert (buffer_ok width height b1) as Hb1
      by (apply buffer_ok_insert; [exact Hb | lia]).
    destruct (IH (S t) b1 Hw Hh Hsz Hr Hb1) as (b' & Run & Hb').
    exists b'. replace (t + S n)%nat with (S t + n)%nat by lia.
    split; assumption.
Qed.

Lemma frame_ok e width height (st : state) :
  0 < width -> 0 < height -> width * height < F64.two53 ->
  (forall j, 0 <= rand e j < F64.two53) ->
  buffer_ok width height (buf st) ->
  exists st', frame e width height st = Ok st' /\
              buffer_ok width height (buf st') /\
              frame_count st' = frame_count st.
Proof.
  intros Hw Hh Hsz Hr Hb. unfold frame.
  destruct (inject_ok e width height (Z.to_nat (inject_count width)) (calls st) (buf st)
              Hw Hh Hsz Hr Hb) as (b1 & Run & Hb1).
  rewrite Run. cbn.
  destruct (for_each_inv (fun s : list Z * list draw => buffer_ok width height s.1)
              (spread_cell e width height) (range (width * height))) with (s := (b1, scr st))
    as ([b2 sc2] & Pass & Hb2).
  - intros i [b sc] Hi%range_spec Hs. cbn in Hs.
    destruct (spread_cell_ok e width height i b sc Hw Hh Hsz Hs Hi) as (b' & sc' & E & Hb').
    exists (b', sc'). split; assumption.
  - exact Hb1.
  - rewrite Pass. cbn. eexists. split; [reflexivity |]. split; [exact Hb2 | reflexivity].
Qed.

(** ** Statement by statement *)

Lemma exec_step_frame_count e width height s (st st1 : state) :
  exec_step e width height s st = Ok st1 -> frame_count st1 = frame_count st.
Proof.
  unfold exec_step.
  destruct s as [| i | i];
    [destruct (inject_once width height (rand e (calls st)) (buf st))
    | destruct (spread width i (buf st))
    | destruct (render e width height i (buf st) (scr st))];
    cbn; intros H; try discriminate; injection H as <-; reflexivity.
Qed.

Lemma run_steps_frame_count e width height (l : list step) : forall (st : state) r st',
  run_steps e width height l st = (r, st') -> frame_count st' = frame_count st.
Proof.
  induction l as [| s l IH]; intros st r st'; cbn [run_steps].
  - intros [= _ <-]. reflexivity.
  - destruct (exec_step e width height s st) as [st1 |] eqn:E.
    + intros Run. rewrite (IH _ _ _ Run). eapply exec_step_frame_count. exact E.
    + intros [= _ <-]. reflexivity.
Qed.

Lemma elem_of_take_in {A} (x : A) (n : nat) (l : list A) : x ∈ take n l -> x ∈ l.
Proof.
  intros H. rewrite <- (take_drop n l). apply elem_of_app. left. exact H.
Qed.

(** The statements of a frame: injections, if the injection count is not
    zero, and the assignment and the drawing of every cell of the grid. *)
Lemma frame_steps_elem width height (s : step) :
  s ∈ frame_steps width height ->
  (s = Inject /\ Z.to_nat (inject_count width) <> 0%nat) \/
  exists i, 0 <= i < width * height /\ (s = Assign i \/ s = Draw i).
Proof.
  unfold frame_steps. intros [H | H]%elem_of_app.
  - left. apply elem_of_replicate in H. exact H.
  - right. apply list_elem_of_In, in_flat_map in H as (i & Hi & Hs).
    apply list_elem_of_In, range_spec in Hi.
    exists i. split; [exact Hi |].
    destruct Hs as [<- | [<- | []]]; auto.
Qed.

(** A property that every statement of a list keeps, when it returns,
    holds of the state reached, however the run ends. *)
Lemma run_steps_inv e width height (P : state -> Prop) (l : list step) :
  (forall s st st1, s ∈ l -> P st -> exec_step e width height s st = Ok st1 -> P st1) ->
  forall (st : state) r st',
    P st -> run_steps e width height l st = (r, st') -> P st'.
Proof.
  induction l as [| s l IH]; intros Hstep st r st' HP; cbn [run_steps].
  - intros [= _ <-]. exact HP.
  - destruct (exec_step e width height s st) as [st1 |] eqn:E.
    + apply IH.
      * intros s0 st0 st2 Hs0. apply Hstep. right. exact Hs0.
      * eapply Hstep; [left | exact HP | exact E].
    + intros [= _ <-]. exact HP.
Qed.

(** Statements that all return from a state with the property, and keep
    it, run to the end of the list. *)
Lemma run_steps_total e width height (P : state -> Prop) (l : list step) :
  (forall s st, s ∈ l -> P st ->
     exists st1, exec_step e width height s st = Ok st1 /\ P st1) ->
  forall st : state, P st ->
    exists st', run_steps e width height l st = (Ok tt, st') /\ P st'.
Proof.
  induction l as [| s l IH]; intros Hstep st HP; cbn [run_steps].
  - exists st. split; [reflexivity | exact HP].
  - destruct (Hstep s st ltac:(left) HP) as (st1 & E & HP1). rewrite E.
    apply IH; [| exact HP1].
    intros s0 st0 Hs0. apply Hstep. right. exact Hs0.
Qed.

(** *** The statements of a frame and [frame] *)

Lemma inject_run e width height (n : nat) : forall t (b : list Z) sc fc (l : list step),
  match inject e width height n t b with
  | Ok (b', t') =>
      run_steps e width height (replicate n Inject ++ l) (mkstate b t sc fc)
      = run_steps e width height l (mkstate b' t' sc fc)
  | Raise x =>
      exists st1, run_steps e width height (replicate n Inject ++ l) (mkstate b t sc fc)
                  = (Raise x, st1)
  end.
Proof.
  induction n as [| n IH]; intros t b sc fc l; cbn [inject replicate app run_steps].
  - reflexivity.
  - unfold exec_step; cbn [buf calls scr frame_count].
    destruct (inject_once width height (rand e t) b) as [b1 | x]; cbn.
    + apply IH.
    + eexists. reflexivity.
Qed.

Lemma pass_run e width height t fc (l : list Z) : forall (b : list Z) (sc : list draw),
  match for_each l (spread_cell e width height) (b, sc) with
  | Ok (b', sc') =>
      run_steps e width height (flat_map (fun i => [Assign i; Draw i]) l) (mkstate b t sc fc)
      = (Ok tt, mkstate b' t sc' fc)
  | Raise x =>
      exists st1,
        run_steps e width height (flat_map (fun i => [Assign i; Draw i]) l)
          (mkstate b t sc fc) = (Raise x, st1)
  end.
Proof.
  induction l as [| i l IH]; intros b sc; cbn [for_each flat_map app run_steps].
  - reflexivity.
  - rewrite spread_cell_eq. unfold exec_step; cbn [buf calls scr frame_count].
    destruct (spread width i b) as [b1 | x]; cbn; [| eexists; reflexivity].
    destruct (render e width height i b1 sc) as [sc1 | x]; cbn; [| eexists; reflexivity].
    apply IH.
Qed.

(** [frame] is the run of all the statements of a frame: the same state
    when they all return, the same exception otherwise. *)
Lemma frame_is_run e width height (st : state) :
  match frame e width height st with
  | Ok st' => run_steps e width height (frame_steps width height) st = (Ok tt, st')
  | Raise x => exists st1, run_steps e width height (frame_steps width height) st
                           = (Raise x, st1)
  end.
Proof.
  destruct st as [b t sc fc]. unfold frame, frame_steps. cbn [buf calls scr frame_count].
  pose proof (inject_run e width height (Z.to_nat (inject_count width)) t b sc fc
                (flat_map (fun i => [Assign i; Draw i]) (range (width * height)))) as I.
  destruct (inject e width height (Z.to_nat (inject_count width)) t b) as [[b1 t1] | x];
    cbn; [| exact I].
  rewrite I.
  pose proof (pass_run e width height t1 fc (range (width * height)) b1 sc) as Q.
  destruct (for_each (range (width * height)) (spread_cell e width height) (b1, sc))
    as [[b2 sc2] | x]; cbn; exact Q.
Qed.

(** *** A statement of a frame on a terminal of fewer than 2^53 cells *)


(** ** Leaving the loop *)

(** A property of the state that the statements of a frame keep, and that
    does not depend on the frame counter, holds of the state the loop is
    left in. *)
Lemma loop_inv_any e width height (P : state -> Prop) :
  (forall s st st1, s ∈ frame_steps width height -> P st ->
     exec_step e width height s st = Ok st1 -> P st1) ->
  (forall st, P st -> P (mkstate (buf st) (calls st) (scr st) (S (frame_count st)))) ->
  forall (fuel : nat) (st : state) r st',
    P st -> loop e width height fuel st = Some (r, st') -> P st'.
Proof.
  intros Hstep Hcount.
  induction fuel as [| fuel IH]; intros st r st' HP; cbn [loop].
  - discriminate.
  - set (steps := if sigint e (AtSimulate (frame_count st))
                  then take (sigwhere e (frame_count st)) (frame_steps width height)
                  else frame_steps width height).
    assert (forall s, s ∈ steps -> s ∈ frame_steps width height) as Sub.
    { subst steps. destruct (sigint e (AtSimulate (frame_count st)));
        [intros s; apply elem_of_take_in | auto]. }
    destruct (run_steps e width height steps st) as [[u | x] st1] eqn:Run.
    2: { intros [= <- <-]. eapply run_steps_inv; [| exact HP | exact Run].
         intros s0 st0 st2 Hs0. apply Hstep, Sub, Hs0. }
    assert (P st1) as HP1.
    { eapply run_steps_inv; [| exact HP | exact Run].
      intros s0 st0 st2 Hs0. apply Hstep, Sub, Hs0. }
    destruct (check e (AtSimulate (frame_count st)) ≫= _) as [u' | x].
    2: { intros [= <- <-]. exact HP1. }
    destruct (negb (getch e (frame_count st) =? -1)).
    { intros [= <- <-]. exact HP1. }
    apply IH. apply Hcount. exact HP1.
Qed.

(** When moreover the statements of a frame all return, the loop is left
    by [break] or by a KeyboardInterrupt only. *)
Lemma loop_inv e width height (P : state -> Prop) :
  (forall s st, s ∈ frame_steps width height -> P st ->
     exists st1, exec_step e width height s st = Ok st1 /\ P st1) ->
  (forall st, P st -> P (mkstate (buf st) (calls st) (scr st) (S (frame_count st)))) ->
  forall (fuel : nat) (st : state) r st',
    P st ->
    loop e width height fuel st = Some (r, st') ->
    P st' /\ (r = Ok tt \/ r = Raise KeyboardInterrupt).
Proof.
  intros Hstep Hcount.
  induction fuel as [| fuel IH]; intros st r st' HP; cbn [loop].
  - discriminate.
  - set (steps := if sigint e (AtSimulate (frame_count st))
                  then take (sigwhere e (frame_count st)) (frame_steps width height)
                  else frame_steps width height).
    assert (forall s, s ∈ steps -> s ∈ frame_steps width height) as Sub.
    { subst steps. destruct (sigint e (AtSimulate (frame_count st)));
        [intros s; apply elem_of_take_in | auto]. }
    destruct (run_steps_total e width height P steps) with (st := st)
      as (st1 & Run & HP1); [| exact HP |].
    { intros s0 st0 Hs0. apply Hstep, Sub, Hs0. }
    rewrite Run. unfold check.
    destruct (sigint e (AtSimulate (frame_count st))); cbn [mbind res_bind].
    { intros [= <- <-]. auto. }
    destruct (sigint e (AtPoll (frame_count st))).
    { intros [= <- <-]. auto. }
    destruct (negb (getch e (frame_count st) =? -1)).
    { intros [= <- <-]. auto. }
    apply IH. apply Hcount. exact HP1.
Qed.

(** And the loop does leave in frame [N] when the frames before it
    pass. *)
Lemma loop_exit_inv e width height (P : state -> Prop) :
  (forall s st, s ∈ frame_steps width height -> P st ->
     exists st1, exec_step e width height s st = Ok st1 /\ P st1) ->
  (forall st, P st -> P (mkstate (buf st) (calls st) (scr st) (S (frame_count st)))) ->
  forall (N fuel : nat) (st : state),
    P st ->
    (forall j, (j < N)%nat -> frame_passes e (frame_count st + j)) ->
    frame_stops e (frame_count st + N) ->
    (N < fuel)%nat ->
    exists r st',
      loop e width height fuel st = Some (r, st') /\
      (r = Ok tt \/ r = Raise KeyboardInterrupt) /\
      frame_count st' = (frame_count st + N)%nat /\
      P st'.
Proof.
  intros Hstep Hcount.
  induction N as [| N IH]; intros fuel st HP Hpass Hstop Hfuel;
    (destruct fuel as [| fuel]; [lia |]); cbn [loop].
  - rewrite Nat.add_0_r in Hstop.
    set (steps := if sigint e (AtSimulate (frame_count st))
                  then take (sigwhere e (frame_count st)) (frame_steps width height)
                  else frame_steps width height).
    assert (forall s, s ∈ steps -> s ∈ frame_steps width height) as Sub.
    { subst steps. destruct (sigint e (AtSimulate (frame_count st)));
        [intros s; apply elem_of_take_in | auto]. }
    destruct (run_steps_total e width height P steps) with (st := st)
      as (st1 & Run & HP1); [| exact HP |].
    { intros s0 st0 Hs0. apply Hstep, Sub, Hs0. }
    pose proof (run_steps_frame_count _ _ _ _ _ _ _ Run) as C1.
    rewrite Run. unfold check.
    destruct (sigint e (AtSimulate (frame_count st))) eqn:S1; cbn [mbind res_bind].
    { eexists _, _. split; [reflexivity |]. split; [right; reflexivity |].
      split; [lia | exact HP1]. }
    destruct (sigint e (AtPoll (frame_count st))) eqn:S2.
    { eexists _, _. split; [reflexivity |]. split; [right; reflexivity |].
      split; [lia | exact HP1]. }
    destruct Hstop as [S | [S | K]]; try congruence.
    destruct (Z.eqb_spec (getch e (frame_count st)) (-1)) as [E | _]; [contradiction |].
    cbn. eexists _, _. split; [reflexivity |]. split; [left; reflexivity |].
    split; [lia | exact HP1].
  - destruct (Hpass 0%nat ltac:(lia)) as (S1 & S2 & K). rewrite Nat.add_0_r in S1, S2, K.
    rewrite S1.
    destruct (run_steps_total e width height P (frame_steps width height) Hstep st HP)
      as (st1 & Run & HP1).
    pose proof (run_steps_frame_count _ _ _ _ _ _ _ Run) as C1.
    rewrite Run. unfold check. rewrite S1, S2, K. cbn.
    destruct (IH fuel (mkstate (buf st1) (calls st1) (scr st1) (S (frame_count st1))))
      as (r & st' & Run' & Hres & Hc & HP'); cbn [frame_count].
    + apply Hcount. exact HP1.
    + intros j Hj. specialize (Hpass (S j) ltac:(lia)).
      replace (S (frame_count st1) + j)%nat with (frame_count st + S j)%nat by lia.
      exact Hpass.
    + replace (S (frame_count st1) + N)%nat with (frame_count st + S N)%nat by lia.
      exact Hstop.
    + lia.
    + exists r, st'. split; [exact Run' |]. split; [exact Hres |].
      cbn [frame_count] in Hc. split; [lia | exact HP'].
Qed.


Lemma init_state_ok width height : buffer_ok width height (buf (init_state width height)).
Proof.
  split; [reflexivity |]. cbn. unfold init_buffer. apply Forall_replicate. lia.
Qed.

Lemma string_app_assoc (a b c : string) :
  ((a ++ b) ++ c)%string = (a ++ b ++ c)%string.
Proof. induction a as [| x a IH]; cbn; [reflexivity | rewrite IH; reflexivity]. Qed.




(** An error of the set-up calls of lines 24 to 30 is caught nowhere: the
    terminal is restored by [curses.wrapper] and the process ends with a
    traceback and status 1. *)
Lemma setup_error_escapes (e : env) (fuel : nat) (x : exn) :
  sigint e AtInit = false -> initscr_exn e = None -> sigint e AtStartup = false ->
  setup_exn e = Some x -> x <> KeyboardInterrupt ->
  program e fuel = Some ([Endwin; Traceback x], 1).
Proof.
  intros I0 I1 S0 S1 Hx. unfold program, main, setup, check.
  rewrite I0, I1, S0, S1. cbn. destruct x; try reflexivity. contradiction.
Qed.


(** ** A terminal narrower than nine columns *)

Lemma int_truediv_zero : int_truediv (0 + 0 + 0 + 0) 4 = Ok 0.
Proof. reflexivity. Qed.

Lemma init_buffer_read width height j :
  0 < width -> 0 < height -> 0 <= j < width * height + width + 1 ->
  getitem (init_buffer width height) j = Ok 0.
Proof.
  intros Hw Hh Hj. apply getitem_lookup; [lia |].
  unfold init_buffer. apply lookup_replicate_2. lia.
Qed.

Lemma spread_zero width height i :
  0 < width -> 0 < height -> 0 <= i < width * height ->
  spread width i (init_buffer width height) = Ok (init_buffer width height).
Proof.
  intros Hw Hh Hi. unfold spread, spread_value.
  rewrite !(init_buffer_read width height) by lia. cbn [mbind res_bind].
  rewrite int_truediv_zero.
  pose proof (init_buffer_length width height Hw Hh) as L.
  change (setitem (init_buffer width height) i 0 = Ok (init_buffer width height)).
  rewrite setitem_in_range by lia. f_equal.
  apply list_insert_id. unfold init_buffer. apply lookup_replicate_2. lia.
Qed.

Lemma render_zero e width height i (sc : list draw) :
  0 < width -> 0 < height -> 0 <= i < width * height ->
  Forall coldest sc ->
  exists sc', render e width height i (init_buffer width height) sc = Ok sc' /\
              Forall coldest sc'.
Proof.
  intros Hw Hh Hi Hsc. unfold render.
  rewrite (init_buffer_read width height) by lia. cbn [mbind res_bind].
  destruct (i <? width * height - 1); [| exists sc; split; [reflexivity | exact Hsc]].
  unfold int_truediv. destruct (Z.eqb_spec width 0); [lia |]. cbn [mbind res_bind].
  destruct ((F64.to_int (F64.div_int i width) <? height) && (i `mod` width <? width));
    [| exists sc; split; [reflexivity | exact Hsc]].
  change (getitem char (ramp 0)) with (Ok (A := string) " "%string). cbn [mbind res_bind].
  unfold addstr; cbn [drow dcol].
  destruct (addstr_err e _ _); cbn.
  - exists sc. split; [reflexivity | exact Hsc].
  - eexists. split; [reflexivity |].
    apply Forall_app. split; [exact Hsc |].
    apply Forall_singleton. split; reflexivity.
Qed.

Lemma frame_zero e width height (st : state) :
  0 < width < 9 -> 0 < height ->
  buf st = init_buffer width height -> Forall coldest (scr st) ->
  exists st', frame e width height st = Ok st' /\
              buf st' = init_buffer width height /\
              Forall coldest (scr st') /\
              calls st' = calls st /\
              frame_count st' = frame_count st.
Proof.
  intros Hw Hh Hb Hsc. unfold frame.
  rewrite inject_count_floor by (unfold F64.two53; lia).
  rewrite Z.div_small by lia. change (Z.to_nat 0) with 0%nat.
  cbn [inject mbind res_bind]. cbv beta iota.
  destruct (for_each_inv
              (fun s : list Z * list draw =>
                 s.1 = init_buffer width height /\ Forall coldest s.2)
              (spread_cell e width height) (range (width * height)))
    with (s := (buf st, scr st)) as ([b2 sc2] & Pass & Hb2 & Hsc2).
  - intros i [b sc] Hi%range_spec [Eb Hc]. cbn in Eb, Hc. subst b.
    rewrite spread_cell_eq, (spread_zero width height i) by lia. cbn [mbind res_bind].
    destruct (render_zero e width height i sc ltac:(lia) Hh Hi Hc) as (sc' & Hr & Hc').
    rewrite Hr. cbn [mbind res_bind]. eexists. split; [reflexivity |].
    split; [reflexivity | exact Hc'].
  - split; [exact Hb | exact Hsc].
  - rewrite Pass. cbn [mbind res_bind]. eexists. split; [reflexivity |].
    cbn in Hb2, Hsc2. cbn. auto.
Qed.

Lemma step_zero e width height (c : nat) (s : step) (st : state) :
  0 < width < 9 -> 0 < height ->
  s ∈ frame_steps width height ->
  buf st = init_buffer width height /\ Forall coldest (scr st) /\ calls st = c ->
  exists st1,
    exec_step e width height s st = Ok st1 /\
    (buf st1 = init_buffer width height /\ Forall coldest (scr st1) /\ calls st1 = c).
Proof.
  intros Hw Hh Hs (Hb & Hsc & Hc).
  apply frame_steps_elem in Hs as [[_ Hn] | (i & Hi & [-> | ->])]; unfold exec_step.
  - exfalso. apply Hn.
    rewrite inject_count_floor by (unfold F64.two53; lia).
    rewrite Z.div_small by lia. reflexivity.
  - rewrite Hb, (spread_zero width height i) by lia. cbn.
    eexists. split; [reflexivity |]. cbn. auto.
  - rewrite Hb.
    destruct (render_zero e width height i (scr st) ltac:(lia) Hh Hi Hsc) as (sc' & Hr & Hc').
    rewrite Hr. cbn. eexists. split; [reflexivity |]. cbn. auto.
Qed.

(** C10: on a terminal of fewer than nine columns the injection count
    is 0; every frame then runs to its end, draws no random number,
    leaves the buffer all zero and draws nothing but the coldest glyph in
    colour pair 1; a run that is stopped in frame [N] gets there, with
    the buffer still all zero and only such draws on the screen; and the
    same holds for whatever state the loop is left in, by a key, a
    signal or an exception. *)
Theorem narrow_terminal_stays_cold (e : env) (width height : Z) :
  0 < width < 9 -> 0 < height ->
  inject_count width = 0 /\
  (forall st, buf st = init_buffer width height -> Forall coldest (scr st) ->
     exists st', frame e width height st = Ok st' /\
                 buf st' = init_buffer width height /\
                 Forall coldest (scr st') /\
                 calls st' = calls st) /\
  (forall N fuel : nat,
     (forall j, (j < N)%nat -> frame_passes e j) -> frame_stops e N -> (N < fuel)%nat ->
     exists r st',
       loop e width height fuel (init_state width height) = Some (r, st') /\
       frame_count st' = N /\
       buf st' = init_buffer width height /\ Forall coldest (scr st')) /\
  (forall fuel r st',
     loop e width height fuel (init_state width height) = Some (r, st') ->
     buf st' = init_buffer width height /\ Forall coldest (scr st') /\ calls st' = 0%nat).
Proof.
  intros Hw Hh. split; [| split; [| split]].
  - rewrite inject_count_floor by (unfold F64.two53; lia). apply Z.div_small. lia.
  - intros st Hb Hsc.
    destruct (frame_zero e width height st Hw Hh Hb Hsc) as (st' & F & ? & ? & ? & _).
    exists st'. auto.
  - intros N fuel Hpass Hstop Hfuel.
    destruct (loop_exit_inv e width height
                (fun st => buf st = init_buffer width height /\ Forall coldest (scr st)
                           /\ calls st = 0%nat))
      with (N := N) (fuel := fuel) (st := init_state width height)
      as (r & st' & Run & _ & Hc & Hb & Hs & _).
    + intros s st Hs HP. apply step_zero; assumption.
    + intros st H. exact H.
    + split; [reflexivity |]. split; [apply Forall_nil_2 | reflexivity].
    + exact Hpass.
    + exact Hstop.
    + exact Hfuel.
    + exists r, st'. cbn in Hc. auto.
  - intros fuel r st' Run.
    apply (loop_inv e width height
             (fun st => buf st = init_buffer width height /\ Forall coldest (scr st)
                        /\ calls st = 0%nat)) in Run as [HP _].
    + exact HP.
    + intros s st Hs HP. apply step_zero; assumption.
    + intros st H. exact H.
    + split; [reflexivity |]. split; [apply Forall_nil_2 | reflexivity].
Qed.

Lemma narrow_terminal_stays_cold_witness :
  inject_count 8 = 0 /\
  (forall st, buf st = init_buffer 8 3 -> Forall coldest (scr st) ->
     exists st', frame narrow_env 8 3 st = Ok st' /\
                 buf st' = init_buffer 8 3 /\
                 Forall coldest (scr st') /\
                 calls st' = calls st) /\
  (forall N fuel : nat,
     (forall j, (j < N)%nat -> frame_passes narrow_env j) -> frame_stops narrow_env N ->
     (N < fuel)%nat ->
     exists r st',
       loop narrow_env 8 3 fuel (init_state 8 3) = Some (r, st') /\
       frame_count st' = N /\
       buf st' = init_buffer 8 3 /\ Forall coldest (scr st')) /\
  (forall fuel r st',
     loop narrow_env 8 3 fuel (init_state 8 3) = Some (r, st') ->
     buf st' = init_buffer 8 3 /\ Forall coldest (scr st') /\ calls st' = 0%nat).
Proof. apply (narrow_terminal_stays_cold narrow_env 8 3); lia. Defined.

(** ** Every buffer of a run is reachable *)

Lemma inject_reach e width height n : forall t (b b' : list Z) t',
  reach width height b ->
  inject e width height n t b = Ok (b', t') ->
  reach width height b'.
Proof.
  induction n as [| n IH]; intros t b b' t' R; cbn [inject].
  - intros H. injection H as <- _. exact R.
  - destruct (inject_once width height (rand e t) b) as [b1 |] eqn:E; cbn; [| discriminate].
    apply IH. eapply reach_inject; eassumption.
Qed.

Lemma pass_reach e width height (l : list Z) : forall (b : list Z) sc b' sc',
  reach width height b ->
  for_each l (spread_cell e width height) (b, sc) = Ok (b', sc') ->
  reach width height b'.
Proof.
  induction l as [| i l IH]; intros b sc b' sc' R; cbn [for_each].
  - intros H. injection H as <- _. exact R.
  - rewrite spread_cell_eq.
    destruct (spread width i b) as [b1 |] eqn:E; cbn; [| discriminate].
    destruct (render e width height i b1 sc) as [sc1 |]; cbn; [| discriminate].
    apply IH. eapply reach_spread; eassumption.
Qed.

Lemma frame_reach e width height (st st' : state) :
  reach width height (buf st) ->
  frame e width height st = Ok st' ->
  reach width height (buf st').
Proof.
  intros R. unfold frame.
  destruct (inject e width height _ (calls st) (buf st)) as [[b1 t1] |] eqn:E1;
    cbn; [| discriminate].
  destruct (for_each _ _ (b1, scr st)) as [[b2 sc2] |] eqn:E2; cbn; [| discriminate].
  intros H. injection H as <-. cbn.
  eapply pass_reach; [| exact E2]. eapply inject_reach; eassumption.
Qed.

Lemma step_reach e width height (s : step) (st st1 : state) :
  reach width height (buf st) ->
  exec_step e width height s st = Ok st1 ->
  reach width height (buf st1).
Proof.
  intros R. unfold exec_step. destruct s as [| i | i].
  - destruct (inject_once width height (rand e (calls st)) (buf st)) as [b1 |] eqn:E;
      cbn; [| discriminate].
    intros [= <-]. cbn. eapply reach_inject; eassumption.
  - destruct (spread width i (buf st)) as [b1 |] eqn:E; cbn; [| discriminate].
    intros [= <-]. cbn. eapply reach_spread; eassumption.
  - destruct (render e width height i (buf st) (scr st)); cbn; [| discriminate].
    intros [= <-]. exact R.
Qed.

Lemma loop_reach e width height : forall (fuel : nat) (st : state) r st',
  reach width height (buf st) ->
  loop e width height fuel st = Some (r, st') ->
  reach width height (buf st').
Proof.
  intros fuel st r st' R Run.
  apply (loop_inv_any e width height (fun st => reach width height (buf st))) in Run.
  - exact Run.
  - intros s st0 st1 _ R0 E. eapply step_reach; eassumption.
  - intros st0 R0. exact R0.
  - exact R.
Qed.

(** X18.  Whatever the terminal size, the random draws, the keys and the
    signals, the buffer [main] ends with is one the program can reach
    from the all-zero buffer, and every heat in it lies in [0, 65]. *)
Lemma main_heat_range e fuel r evs st :
  main e fuel = Some (r, evs, st) ->
  reach (getmaxyx e).2 (getmaxyx e).1 (buf st) /\
  Forall (fun v => 0 <= v <= 65) (buf st).
Proof.
  intros Run.
  assert (reach (getmaxyx e).2 (getmaxyx e).1 (buf st)) as R.
  { unfold main in Run.
    destruct (setup e).
    - destruct (loop e _ _ fuel _) as [[r1 st1] |] eqn:L; [| discriminate].
      apply loop_reach in L; [| apply reach_init].
      destruct (shutdown e _ (frame_count st1)) as [r2 evs2].
      injection Run as <- <- <-. exact L.
    - injection Run as <- <- <-. apply reach_init. }
  split; [exact R | eapply reach_range; exact R].
Qed.

(** ** The slack cells are never written by the diffusion pass *)

Lemma pass_keeps_cell width (c : nat) (l : list Z) : forall (b b' : list Z),
  Forall (fun i => 0 <= i /\ Z.to_nat i <> c) l ->
  for_each l (spread width) b = Ok b' ->
  b' !! c = b !! c.
Proof.
  induction l as [| i l IH]; intros b b' Hl; cbn [for_each].
  - intros H. injection H as <-. reflexivity.
  - apply Forall_cons in Hl as [[Hi Hc] Hl].
    destruct (spread width i b) as [b1 |] eqn:E; cbn; [| discriminate].
    intros Run. rewrite (IH b1 b' Hl Run).
    apply spread_inv in E as (v & _ & Hset).
    apply setitem_nonneg_inv in Hset as [_ ->]; [| exact Hi].
    apply list_lookup_insert_ne. exact Hc.
Qed.

(** X2.  A value in a cell at or behind [width*height], such as the [65] of
    an injection that landed on [b[width*height]], survives every
    diffusion pass. *)
Theorem diffuse_keeps_slack width height (b b' : list Z) (c : Z) :
  width * height <= c ->
  diffuse width height b = Ok b' ->
  b' !! Z.to_nat c = b !! Z.to_nat c.
Proof.
  intros Hc. unfold diffuse. apply pass_keeps_cell.
  apply Forall_forall. intros i Hi%range_spec. lia.
Qed.

Lemma diffuse_keeps_slack_witness :
  <[17%nat := 16]> (<[18%nat := 16]> (<[26%nat := 16]> (<[27%nat := 65]> (init_buffer 9 3))))
    !! Z.to_nat 27
  = <[27%nat := 65]> (init_buffer 9 3) !! Z.to_nat 27.
Proof.
  apply (diffuse_keeps_slack 9 3 (<[27%nat := 65]> (init_buffer 9 3)) _ 27).
  - lia.
  - vm_compute. reflexivity.
Defined.

(** ** The buffer is never resized *)

Lemma inject_length e width height n : forall t (b b' : list Z) t',
  inject e width height n t b = Ok (b', t') -> length b' = length b.
Proof.
  induction n as [| n IH]; intros t b b' t'; cbn [inject].
  - intros H. injection H as <- _. reflexivity.
  - destruct (inject_once width height (rand e t) b) as [b1 |] eqn:E; cbn; [| discriminate].
    intros Run. rewrite (IH _ _ _ _ Run).
    unfold inject_once in E. exact (setitem_length _ _ _ _ E).
Qed.

Lemma pass_length e width height (l : list Z) : forall (b : list Z) sc b' sc',
  for_each l (spread_cell e width height) (b, sc) = Ok (b', sc') ->
  length b' = length b.
Proof.
  induction l as [| i l IH]; intros b sc b' sc'; cbn [for_each].
  - intros H. injection H as <- _. reflexivity.
  - rewrite spread_cell_eq.
    destruct (spread width i b) as [b1 |] eqn:E; cbn; [| discriminate].
    destruct (render e width height i b1 sc) as [sc1 |]; cbn; [| discriminate].
    intros Run. rewrite (IH _ _ _ _ Run).
    apply spread_inv in E as (v & _ & Hset). exact (setitem_length _ _ _ _ Hset).
Qed.

Lemma step_length e width height (s : step) (st st1 : state) :
  exec_step e width height s st = Ok st1 -> length (buf st1) = length (buf st).
Proof.
  unfold exec_step. destruct s as [| i | i].
  - destruct (inject_once width height (rand e (calls st)) (buf st)) as [b1 |] eqn:E;
      cbn; [| discriminate].
    intros [= <-]. cbn. unfold inject_once in E. exact (setitem_length _ _ _ _ E).
  - destruct (spread width i (buf st)) as [b1 |] eqn:E; cbn; [| discriminate].
    intros [= <-]. cbn. apply spread_inv in E as (v & _ & Hset).
    exact (setitem_length _ _ _ _ Hset).
  - destruct (render e width height i (buf st) (scr st)); cbn; [| discriminate].
    intros [= <-]. reflexivity.
Qed.

(** X3.  The buffer is never resized: whatever the terminal size and the
    buffer, a frame that runs to its end leaves the buffer with the
    length it had, and so does a whole run of the loop, however it is
    left, also by an interrupt or an exception half way through a
    frame. *)
Theorem frame_keeps_length (e : env) (width height : Z) (st : state) :
  (forall st', frame e width height st = Ok st' -> length (buf st') = length (buf st)) /\
  (forall fuel r st',
     loop e width height fuel st = Some (r, st') -> length (buf st') = length (buf st)).
Proof.
  split.
  - intros st'. unfold frame.
    destruct (inject e width height _ (calls st) (buf st)) as [[b1 t1] |] eqn:E1;
      cbn; [| discriminate].
    destruct (for_each _ _ (b1, scr st)) as [[b2 sc2] |] eqn:E2; cbn; [| discriminate].
    intros H. injection H as <-. cbn.
    rewrite (pass_length _ _ _ _ _ _ _ _ E2). exact (inject_length _ _ _ _ _ _ _ _ E1).
  - intros fuel r st' Run.
    apply (loop_inv_any e width height (fun s => length (buf s) = length (buf st))) in Run.
    + exact Run.
    + intros s st0 st1 _ H0 E. rewrite (step_length _ _ _ _ _ _ E). exact H0.
    + intros st0 H0. exact H0.
    + reflexivity.
Qed.

Lemma frame_keeps_length_witness :
  (exists st',
     frame idle_env 9 3 (init_state 9 3) = Ok st' /\
     buf st' <> buf (init_state 9 3) /\ calls st' = 1%nat /\
     length (buf st') = length (buf (init_state 9 3))) /\
  (exists st',
     loop midframe_sigint_env 9 3 5 (init_state 9 3) = Some (Raise KeyboardInterrupt, st') /\
     buf st' <> buf (init_state 9 3) /\
     length (buf st') = length (buf (init_state 9 3))).
Proof.
  split.
  - eexists. split; [vm_compute; reflexivity |].
    split; [vm_compute; discriminate |]. split; [reflexivity |].
    apply (frame_keeps_length idle_env 9 3 (init_state 9 3)).
    vm_compute. reflexivity.
  - eexists. split; [vm_compute; reflexivity |].
    split; [vm_compute; discriminate |].
    apply (frame_keeps_length midframe_sigint_env 9 3 (init_state 9 3)) with
      (fuel := 5%nat) (r := Raise KeyboardInterrupt).
    vm_compute. reflexivity.
Defined.

(** ** A frame on a terminal of fewer than 2^53 cells *)

(** X4.  With positive dimensions, fewer than 2^53 cells and a buffer of
    the allocated length holding heats in [0, 65], a frame raises no
    exception (no subscript out of range, no division by zero, no
    escaping curses error); it consumes exactly [floor(width / 9)] random
    draws and hands on a buffer of the same shape. *)
Theorem frame_never_raises (e : env) (width height : Z) (st : state) :
  0 < width -> 0 < height -> width * height < F64.two53 ->
  (forall j, 0 <= rand e j < F64.two53) ->
  buffer_ok width height (buf st) ->
  exists st',
    frame e width height st = Ok st' /\
    buffer_ok width height (buf st') /\
    calls st' = (calls st + Z.to_nat (width / 9))%nat /\
    frame_count st' = frame_count st.
Proof.
  intros Hw Hh Hsz Hr Hb. unfold frame.
  destruct (inject_ok e width height (Z.to_nat (inject_count width)) (calls st) (buf st)
              Hw Hh Hsz Hr Hb) as (b1 & Run & Hb1).
  rewrite Run. cbn.
  destruct (for_each_inv (fun s : list Z * list draw => buffer_ok width height s.1)
              (spread_cell e width height) (range (width * height))) with (s := (b1, scr st))
    as ([b2 sc2] & Pass & Hb2).
  - intros i [b sc] Hi%range_spec Hs. cbn in Hs.
    destruct (spread_cell_ok e width height i b sc Hw Hh Hsz Hs Hi) as (b' & sc' & E & Hb').
    exists (b', sc'). split; assumption.
  - exact Hb1.
  - rewrite Pass. cbn. eexists. split; [reflexivity |]. cbn.
    split; [exact Hb2 |]. split; [| reflexivity].
    rewrite inject_count_floor by nia. reflexivity.
Qed.

Lemma frame_never_raises_witness :
  exists st',
    frame idle_env 80 24 (init_state 80 24) = Ok st' /\
    buffer_ok 80 24 (buf st') /\
    calls st' = (calls (init_state 80 24) + Z.to_nat (80 / 9))%nat /\
    frame_count st' = frame_count (init_state 80 24).
Proof.
  apply (frame_never_raises idle_env 80 24 (init_state 80 24)).
  - lia.
  - lia.
  - reflexivity.
  - intros j. cbn. unfold F64.two53. lia.
  - apply init_state_ok.
Defined.

(** ** Diffusion does not make heat *)

Lemma mean4_bounds M b0 b1 b2 b3 :
  4 * M < F64.two53 ->
  0 <= b0 <= M -> 0 <= b1 <= M -> 0 <= b2 <= M -> 0 <= b3 <= M ->
  F64.to_int (F64.div_int (b0 + b1 + b2 + b3) 4) = (b0 + b1 + b2 + b3) / 4 /\
  0 <= (b0 + b1 + b2 + b3) / 4 <= M.
Proof.
  intros HM H0 H1 H2 H3.
  rewrite F64Facts.to_int_div_int by lia.
  split; [reflexivity |]. split.
  - apply Z.div_pos; lia.
  - apply Z.div_le_upper_bound; lia.
Qed.

Lemma pass_Forall width (P : Z -> Prop) (l : list Z) :
  (forall (b : list Z) i v, Forall P b -> spread_value width b i = Ok v -> P v) ->
  forall b b' : list Z,
    Forall P b -> for_each l (spread width) b = Ok b' -> Forall P b'.
Proof.
  intros Hstep. induction l as [| i l IH]; intros b b' Hb; cbn [for_each].
  - intros H. injection H as <-. exact Hb.
  - destruct (spread width i b) as [b1 |] eqn:E; cbn; [| discriminate].
    apply IH. apply spread_inv in E as (v & Hv & Hset).
    eapply setitem_Forall; [exact Hb | | exact Hset].
    eapply Hstep; eassumption.
Qed.

(** X5.  A diffusion pass never raises the hottest heat: if every cell
    of a buffer lies in [0, M] (with [4*M] below 2^53) then so does every
    cell after the pass, for any terminal size. *)
Theorem diffuse_keeps_upper_bound (width height M : Z) (b b' : list Z) :
  4 * M < F64.two53 ->
  Forall (fun v => 0 <= v <= M) b ->
  diffuse width height b = Ok b' ->
  Forall (fun v => 0 <= v <= M) b'.
Proof.
  intros HM Hb Run. unfold diffuse in Run.
  eapply pass_Forall; [| exact Hb | exact Run].
  intros c i v Hc Hv.
  apply spread_value_inv in Hv as (b0 & b1 & b2 & b3 & G0 & G1 & G2 & G3 & ->).
  rewrite Forall_forall in Hc.
  pose proof (Hc _ (getitem_elem _ _ _ G0)).
  pose proof (Hc _ (getitem_elem _ _ _ G1)).
  pose proof (Hc _ (getitem_elem _ _ _ G2)).
  pose proof (Hc _ (getitem_elem _ _ _ G3)).
  destruct (mean4_bounds M b0 b1 b2 b3) as [-> ?]; assumption.
Qed.

Lemma diffuse_keeps_upper_bound_witness :
  Forall (fun v => 0 <= v <= 40)
    (<[10%nat := 10]> (<[11%nat := 10]> (<[19%nat := 10]> (<[20%nat := 10]> (init_buffer 9 3))))).
Proof.
  apply (diffuse_keeps_upper_bound 9 3 40 (<[20%nat := 40]> (init_buffer 9 3))).
  - reflexivity.
  - apply Forall_insert; [apply Forall_replicate; lia | lia].
  - vm_compute. reflexivity.
Defined.

(** X6.  The all-zero buffer is a fixed point of the diffusion pass on
    every terminal: without injection a cold screen stays cold. *)
Theorem diffuse_zero_fixed (width height : Z) :
  0 < width -> 0 < height ->
  diffuse width height (init_buffer width height) = Ok (init_buffer width height).
Proof.
  intros Hw Hh. unfold diffuse.
  destruct (for_each_inv (fun b : list Z => b = init_buffer width height)
              (spread width) (range (width * height))) with (s := init_buffer width height)
    as (b' & Run & ->); [| reflexivity | exact Run].
  intros i b Hi%range_spec ->.
  exists (init_buffer width height). split; [| reflexivity].
  apply spread_zero; assumption.
Qed.

Lemma diffuse_zero_fixed_witness :
  diffuse 80 24 (init_buffer 80 24) = Ok (init_buffer 80 24).
Proof. apply (diffuse_zero_fixed 80 24); lia. Defined.

(** ** Cells and screen positions *)

(** X7.  For a cell [i] of a terminal of fewer than 2^53 cells the row
    [int(i / width)] and the column [i % width] lie on the screen and
    give the cell back: [row * width + col = i]; two different cells are
    therefore never drawn at the same position. *)
Theorem cell_position_round_trip (width height i : Z) :
  0 < width -> 0 < height -> width * height < F64.two53 ->
  0 <= i < width * height ->
  exists row,
    int_truediv i width = Ok row /\
    0 <= row < height /\ 0 <= i `mod` width < width /\
    row * width + i `mod` width = i /\
    forall j row', 0 <= j < width * height ->
      int_truediv j width = Ok row' ->
      row' = row -> j `mod` width = i `mod` width -> j = i.
Proof.
  intros Hw Hh Hsz Hi. exists (i / width).
  pose proof (Z.div_mod i width ltac:(lia)) as E.
  pose proof (Z.mod_pos_bound i width Hw) as B.
  split; [apply int_truediv_floor; lia |].
  split; [split; [apply Z.div_pos; lia | apply Z.div_lt_upper_bound; lia] |].
  split; [exact B |]. split; [lia |].
  intros j row' Hj Hrow -> Hcol.
  rewrite int_truediv_floor in Hrow by lia. injection Hrow as Hrow.
  pose proof (Z.div_mod j width ltac:(lia)). nia.
Qed.

Lemma cell_position_round_trip_witness :
  exists row,
    int_truediv 1919 80 = Ok row /\
    0 <= row < 24 /\ 0 <= 1919 `mod` 80 < 80 /\
    row * 80 + 1919 `mod` 80 = 1919 /\
    forall j row', 0 <= j < 80 * 24 ->
      int_truediv j 80 = Ok row' ->
      row' = row -> j `mod` 80 = 1919 `mod` 80 -> j = 1919.
Proof. apply (cell_position_round_trip 80 24 1919); try lia; reflexivity. Defined.

(** X8.  Glyph and colour of a cell agree: a heat in tier 1 shows one of
    the five coldest glyphs, a heat in tier 2 one of the five hottest,
    and every heat in tier 3 or 4 shows ["$"]; the subscript into the
    ramp never leaves it. *)
Theorem glyph_matches_tier (v : Z) :
  0 <= v ->
  exists g,
    getitem char (ramp v) = Ok g /\
    (color v = 1 -> g ∈ [" "; "."; ":"; "^"; "*"]%string) /\
    (color v = 2 -> g ∈ ["x"; "s"; "S"; "#"; "$"]%string) /\
    (3 <= color v -> g = "$"%string).
Proof.
  intros Hv.
  assert (v = 0 \/ v = 1 \/ v = 2 \/ v = 3 \/ v = 4 \/ v = 5 \/ v = 6 \/ v = 7 \/
          v = 8 \/ v = 9 \/ 9 < v) as Cases by lia.
  destruct Cases as [-> | [-> | [-> | [-> | [-> | [-> | [-> | [-> | [-> | [-> | Hot]]]]]]]]]];
    try (eexists; split; [reflexivity |]; cbn;
         repeat split; intros; try lia;
         repeat (first [apply list_elem_of_here | apply list_elem_of_further])).
  exists "$"%string. unfold ramp, color.
  destruct (Z.ltb_spec 9 v); [| lia].
  split; [reflexivity |].
  destruct (Z.ltb_spec 15 v); repeat split; intros; try lia; reflexivity.
Qed.

Lemma glyph_matches_tier_witness :
  exists g,
    getitem char (ramp 16) = Ok g /\
    (color 16 = 1 -> g ∈ [" "; "."; ":"; "^"; "*"]%string) /\
    (color 16 = 2 -> g ∈ ["x"; "s"; "S"; "#"; "$"]%string) /\
    (3 <= color 16 -> g = "$"%string).
Proof. apply (glyph_matches_tier 16). lia. Defined.

(** ** What a run draws and how it ends *)

Lemma color_range v : 1 <= color v <= 4.
Proof.
  unfold color.
  destruct (Z.ltb_spec 15 v), (Z.ltb_spec 9 v), (Z.ltb_spec 4 v); lia.
Qed.

Lemma step_draw_ok e width height (s : step) (st : state) :
  0 < width -> 0 < height -> width * height < F64.two53 ->
  (forall j, 0 <= rand e j < F64.two53) ->
  s ∈ frame_steps width height ->
  buffer_ok width height (buf st) /\ Forall (draw_ok width height) (scr st) ->
  exists st1,
    exec_step e width height s st = Ok st1 /\
    (buffer_ok width height (buf st1) /\ Forall (draw_ok width height) (scr st1)).
Proof.
  intros Hw Hh Hsz Hr Hs [Hb Hsc].
  apply frame_steps_elem in Hs as [[-> _] | (i & Hi & [-> | ->])]; unfold exec_step.
  - rewrite (inject_once_spec width height (rand e (calls st)) (buf st) Hw Hh Hsz (Hr _)
               (proj1 Hb)).
    cbn. eexists. split; [reflexivity |]. cbn.
    split; [apply buffer_ok_insert; [exact Hb | lia] | exact Hsc].
  - destruct (spread_ok width height i (buf st) Hw Hh Hb Hi) as (v & Hsp & Hv).
    rewrite Hsp. cbn. eexists. split; [reflexivity |]. cbn.
    split; [apply buffer_ok_insert; assumption | exact Hsc].
  - destruct (buffer_ok_read width height (buf st) i Hw Hh Hb ltac:(lia)) as (v & Hget & Hv).
    destruct (render_spec e width height i (buf st) (scr st) v Hw Hh Hsz Hi Hget ltac:(lia))
      as (g & Hg & Hrow & Hcol & Hrd).
    rewrite Hrd. cbn. eexists. split; [reflexivity |]. cbn. split; [exact Hb |].
    destruct (Z.ltb_spec i (width * height - 1)) as [Hlast |]; cbn; [| exact Hsc].
    destruct (addstr_err e (i / width) (i `mod` width)); cbn; [exact Hsc |].
    apply Forall_app. split; [exact Hsc |]. apply Forall_singleton.
    pose proof (Z.div_mod i width ltac:(lia)) as E.
    unfold draw_ok; cbn.
    split; [split; [apply Z.div_pos; lia | exact Hrow] |].
    split; [exact Hcol |]. split; [lia |]. split; [reflexivity |].
    split; [apply color_range |].
    eapply getitem_elem. exact Hg.
Qed.

(** X9.  On a terminal of fewer than 2^53 cells, everything a run has
    drawn when the loop is left, whatever the keys, the draws the
    terminal refused and the signals, also those that stop a frame half
    way, addresses a cell of the screen other than the bottom-right one,
    is bold, uses one of the four colour pairs and shows a glyph of the
    ramp. *)
Theorem draws_stay_on_screen (e : env) (width height : Z) (fuel : nat) r (st' : state) :
  0 < width -> 0 < height -> width * height < F64.two53 ->
  (forall j, 0 <= rand e j < F64.two53) ->
  loop e width height fuel (init_state width height) = Some (r, st') ->
  Forall (draw_ok width height) (scr st').
Proof.
  intros Hw Hh Hsz Hr Run.
  apply (loop_inv e width height
           (fun st => buffer_ok width height (buf st) /\
                      Forall (draw_ok width height) (scr st))) in Run
    as [[_ Hsc] _].
  - exact Hsc.
  - intros s st Hs HP. apply step_draw_ok; assumption.
  - intros st H. exact H.
  - split; [apply init_state_ok | apply Forall_nil_2].
Qed.

Lemma draws_stay_on_screen_witness :
  exists st',
    loop midframe_sigint_env 9 3 5 (init_state 9 3) = Some (Raise KeyboardInterrupt, st') /\
    (length (scr st') = 40%nat /\ frame_count st' = 1%nat) /\
    Forall (draw_ok 9 3) (scr st').
Proof.
  eexists. split; [vm_compute; reflexivity |].
  split; [split; reflexivity |].
  apply (draws_stay_on_screen midframe_sigint_env 9 3 5 (Raise KeyboardInterrupt)).
  - lia.
  - lia.
  - reflexivity.
  - intros j. cbn. unfold F64.two53. lia.
  - vm_compute. reflexivity.
Defined.




(** X11.  Nothing but a key or an interrupt ends the animation: on a
    terminal of fewer than 2^53 cells, as long as no key is pressed and
    no signal delivered, the loop is still running after any number of
    frames. *)
Theorem loop_runs_until_stopped (e : env) (width height : Z) (fuel : nat) :
  0 < width -> 0 < height -> width * height < F64.two53 ->
  (forall j, 0 <= rand e j < F64.two53) ->
  (forall j, frame_passes e j) ->
  loop e width height fuel (init_state width height) = None.
Proof.
  intros Hw Hh Hsz Hr Hpass.
  assert (forall st, buffer_ok width height (buf st) ->
                     loop e width height fuel st = None) as H.
  { induction fuel as [| n IH]; intros st Hb; cbn [loop]; [reflexivity |].
    destruct (Hpass (frame_count st)) as (S1 & S2 & K).
    rewrite S1.
    destruct (frame_ok e width height st Hw Hh Hsz Hr Hb) as (st1 & F & Hb1 & _).
    pose proof (frame_is_run e width height st) as Run. rewrite F in Run.
    rewrite Run. unfold check. rewrite S1, S2, K. cbn. apply IH. exact Hb1. }
  apply H. apply init_state_ok.
Qed.

Lemma loop_runs_until_stopped_witness :
  loop idle_env 80 24 1000 (init_state 80 24) = None.
Proof.
  apply (loop_runs_until_stopped idle_env 80 24 1000).
  - lia.
  - lia.
  - reflexivity.
  - intros j. cbn. unfold F64.two53. lia.
  - intros j. unfold frame_passes. cbn. auto.
Defined.

(** ** The draws of one frame *)

Lemma spread_cell_spec e width height i (b : list Z) (sc : list draw) :
  0 < width -> 0 < height -> width * height < F64.two53 ->
  buffer_ok width height b ->
  0 <= i < width * height ->
  exists v g,
    0 <= v <= 65 /\ getitem char (ramp v) = Ok g /\
    spread_cell e width height i (b, sc)
    = Ok (<[Z.to_nat i := v]> b,
          if (i <? width * height - 1) && negb (addstr_err e (i / width) (i `mod` width))
          then sc ++ [mkdraw (i / width) (i `mod` width) g (color v) true]
          else sc).
Proof.
  intros Hw Hh Hsz Hb Hi.
  destruct (spread_ok width height i b Hw Hh Hb Hi) as (v & Hs & Hv).
  assert (getitem (<[Z.to_nat i := v]> b) i = Ok v) as Hget.
  { apply getitem_lookup; [lia |]. apply list_lookup_insert_eq.
    destruct Hb as [Hlen _].
    pose proof (init_buffer_length width height Hw Hh) as L. rewrite <- Hlen in L. lia. }
  destruct (render_spec e width height i _ sc v Hw Hh Hsz Hi Hget ltac:(lia))
    as (g & Hg & _ & _ & Hr).
  exists v, g. split; [exact Hv |]. split; [exact Hg |].
  rewrite spread_cell_eq, Hs. cbn. rewrite Hr. reflexivity.
Qed.

Lemma pass_draws e width height :
  0 < width -> 0 < height -> width * height < F64.two53 ->
  (forall r c, addstr_err e r c = false) ->
  forall (k : nat) i (b : list Z) (sc : list draw),
    0 <= i -> i + Z.of_nat k = width * height ->
    buffer_ok width height b ->
    exists b' new,
      for_each (seqZ i (Z.of_nat k)) (spread_cell e width height) (b, sc)
      = Ok (b', sc ++ new) /\
      buffer_ok width height b' /\
      map (fun d => (drow d, dcol d)) new
      = map (fun j => (j / width, j `mod` width)) (seqZ i (Z.of_nat k - 1)).
Proof.
  intros Hw Hh Hsz Hacc.
  induction k as [| k IH]; intros i b sc Hi Hik Hb.
  - exists b, []. rewrite app_nil_r.
    split; [reflexivity |]. split; [exact Hb | reflexivity].
  - rewrite seqZ_cons by lia.
    replace (Z.pred (Z.of_nat (S k))) with (Z.of_nat k) by lia.
    replace (Z.of_nat (S k) - 1) with (Z.of_nat k) by lia.
    cbn [for_each].
    destruct (spread_cell_spec e width height i b sc Hw Hh Hsz Hb ltac:(lia))
      as (v & g & Hv & Hg & Hcell).
    rewrite Hcell, Hacc. cbn [negb mbind res_bind]. rewrite andb_true_r.
    pose proof (buffer_ok_insert width height b (Z.to_nat i) v Hb Hv) as Hb1.
    destruct k as [| k].
    + destruct (Z.ltb_spec i (width * height - 1)); [lia |].
      exists (<[Z.to_nat i := v]> b), []. rewrite app_nil_r.
      split; [reflexivity |]. split; [exact Hb1 | reflexivity].
    + destruct (Z.ltb_spec i (width * height - 1)); [| lia].
      destruct (IH (Z.succ i) (<[Z.to_nat i := v]> b)
                  (sc ++ [mkdraw (i / width) (i `mod` width) g (color v) true])
                  ltac:(lia) ltac:(lia) Hb1) as (b' & new & Run & Hb' & Hmap).
      exists b', (mkdraw (i / width) (i `mod` width) g (color v) true :: new).
      split; [rewrite Run, <- app_assoc; reflexivity |]. split; [exact Hb' |].
      rewrite (seqZ_cons i) by lia. cbn [map drow dcol]. rewrite Hmap.
      replace (Z.pred (Z.of_nat (S k))) with (Z.of_nat (S k) - 1) by lia.
      reflexivity.
Qed.

(** X12.  On a terminal of fewer than 2^53 cells that accepts every
    draw, a frame keeps what is on the screen and adds exactly one draw
    for each cell but the last, in row-major order: the draw for cell
    [i] is at [(i div width, i mod width)]. *)
Theorem frame_draws_row_major (e : env) (width height : Z) (st : state) :
  0 < width -> 0 < height -> width * height < F64.two53 ->
  (forall j, 0 <= rand e j < F64.two53) ->
  (forall r c, addstr_err e r c = false) ->
  buffer_ok width height (buf st) ->
  exists st' new,
    frame e width height st = Ok st' /\
    scr st' = scr st ++ new /\
    map (fun d => (drow d, dcol d)) new
    = map (fun i => (i / width, i `mod` width)) (range (width * height - 1)).
Proof.
  intros Hw Hh Hsz Hr Hacc Hb. unfold frame.
  destruct (inject_ok e width height (Z.to_nat (inject_count width)) (calls st) (buf st)
              Hw Hh Hsz Hr Hb) as (b1 & Run & Hb1).
  rewrite Run. cbn.
  destruct (pass_draws e width height Hw Hh Hsz Hacc (Z.to_nat (width * height)) 0 b1 (scr st)
              ltac:(lia) ltac:(nia) Hb1) as (b2 & new & Pass & _ & Hmap).
  rewrite Z2Nat.id in Pass, Hmap by nia.
  unfold range. rewrite Pass. cbn.
  eexists _, new. split; [reflexivity |]. split; [reflexivity | exact Hmap].
Qed.

Lemma frame_draws_row_major_witness :
  exists st' new,
    frame idle_env 80 24 (init_state 80 24) = Ok st' /\
    scr st' = scr (init_state 80 24) ++ new /\
    map (fun d => (drow d, dcol d)) new
    = map (fun i => (i / 80, i `mod` 80)) (range (80 * 24 - 1)).
Proof.
  apply (frame_draws_row_major idle_env 80 24 (init_state 80 24)).
  - lia.
  - lia.
  - reflexivity.
  - intros j. cbn. unfold F64.two53. lia.
  - reflexivity.
  - apply init_state_ok.
Defined.

(** ** The simulation does not depend on the terminal *)

Lemma inject_rand_ext e1 e2 width height n :
  (forall t, rand e1 t = rand e2 t) ->
  forall t (b : list Z), inject e1 width height n t b = inject e2 width height n t b.
Proof.
  intros Hr. induction n as [| n IH]; intros t b; cbn [inject]; [reflexivity |].
  rewrite Hr. destruct (inject_once width height (rand e2 t) b); cbn; [apply IH | reflexivity].
Qed.

(** Two results with the same outcome: both values, or the same
    exception. *)
Lemma render_outcome e1 e2 width height i (b : list Z) (sc1 sc2 : list draw) :
  match render e1 width height i b sc1, render e2 width height i b sc2 with
  | Ok _, Ok _ => True
  | Raise x, Raise y => x = y
  | _, _ => False
  end.
Proof.
  unfold render.
  destruct (getitem b i) as [v |]; cbn; [| reflexivity].
  destruct (i <? width * height - 1); [| exact I].
  destruct (int_truediv i width) as [row |]; cbn; [| reflexivity].
  destruct ((row <? height) && (i `mod` width <? width)); [| exact I].
  destruct (getitem char (ramp v)) as [g |]; cbn; [| reflexivity].
  unfold addstr; cbn.
  destruct (addstr_err e1 row (i `mod` width)), (addstr_err e2 row (i `mod` width));
    exact I.
Qed.

Lemma pass_terminal_indep e1 e2 width height (l : list Z) :
  forall (b : list Z) (sc1 sc2 : list draw),
    match for_each l (spread_cell e1 width height) (b, sc1),
          for_each l (spread_cell e2 width height) (b, sc2) with
    | Ok s1, Ok s2 => s1.1 = s2.1
    | Raise x, Raise y => x = y
    | _, _ => False
    end.
Proof.
  induction l as [| i l IH]; intros b sc1 sc2; cbn [for_each].
  - reflexivity.
  - rewrite !spread_cell_eq.
    destruct (spread width i b) as [b1 |]; cbn; [| reflexivity].
    pose proof (render_outcome e1 e2 width height i b1 sc1 sc2) as R.
    destruct (render e1 width height i b1 sc1) as [s1 |],
             (render e2 width height i b1 sc2) as [s2 |]; cbn; try contradiction.
    + apply IH.
    + exact R.
Qed.

(** X13.  Heat does not depend on the terminal: two runs of a frame that
    see the same random draws and start from the same buffer end with the
    same buffer and have consumed the same draws, or raise the same
    exception, whatever draws the terminal refuses and whatever is on the
    screen. *)
Theorem frame_buffer_ignores_terminal (e1 e2 : env) (width height : Z) (st1 st2 : state) :
  (forall t, rand e1 t = rand e2 t) ->
  buf st1 = buf st2 -> calls st1 = calls st2 ->
  match frame e1 width height st1, frame e2 width height st2 with
  | Ok s1, Ok s2 => buf s1 = buf s2 /\ calls s1 = calls s2
  | Raise x, Raise y => x = y
  | _, _ => False
  end.
Proof.
  intros Hr Hb Hc. unfold frame.
  rewrite (inject_rand_ext e1 e2 width height _ Hr), Hb, Hc.
  destruct (inject e2 width height _ (calls st2) (buf st2)) as [[b1 t1] |]; cbn;
    [| reflexivity].
  pose proof (pass_terminal_indep e1 e2 width height (range (width * height))
                b1 (scr st1) (scr st2)) as P.
  destruct (for_each _ (spread_cell e1 width height) _) as [[b2 s2] |],
           (for_each _ (spread_cell e2 width height) _) as [[b3 s3] |]; cbn in *;
    try contradiction; auto.
Qed.

Lemma frame_buffer_ignores_terminal_witness :
  match frame idle_env 9 3 (init_state 9 3), frame stubborn_env 9 3 (init_state 9 3) with
  | Ok s1, Ok s2 => buf s1 = buf s2 /\ calls s1 = calls s2
  | Raise x, Raise y => x = y
  | _, _ => False
  end.
Proof.
  apply (frame_buffer_ignores_terminal idle_env stubborn_env 9 3); reflexivity.
Defined.

(** ** The summary gives the frame count back *)

Lemma string_app_inv_l (p a b : string) : (p ++ a)%string = (p ++ b)%string -> a = b.
Proof.
  induction p as [| c p IH]; cbn; [auto |].
  intros H. injection H as H. auto.
Qed.

Lemma string_length_app (a b : string) :
  String.length (a ++ b) = (String.length a + String.length b)%nat.
Proof. induction a as [| c a IH]; cbn; [reflexivity | rewrite IH; reflexivity]. Qed.

Lemma string_app_inv_r (c : string) : forall a b : string,
  (a ++ c)%string = (b ++ c)%string -> a = b.
Proof.
  induction a as [| x a IH]; intros [| y b] H; cbn in H.
  - reflexivity.
  - apply (f_equal String.length) in H. cbn in H. rewrite string_length_app in H. lia.
  - apply (f_equal String.length) in H. cbn in H. rewrite string_length_app in H. lia.
  - injection H as -> H. f_equal. apply IH. exact H.
Qed.

(** X14.  The summary line determines the frame count: two runs print
    the same summary only if they completed the same number of frames. *)
Theorem summary_injective (n m : nat) : summary n = summary m -> n = m.
Proof.
  unfold summary. intros H.
  apply string_app_inv_l, string_app_inv_l in H.
  rewrite <- !string_app_assoc in H.
  apply string_app_inv_r, string_app_inv_r in H.
  apply Unsigned.to_uint_inj.
  pose proof (NilEmpty.usu (Nat.to_uint n)) as Un.
  pose proof (NilEmpty.usu (Nat.to_uint m)) as Um.
  rewrite H in Un. congruence.
Qed.

Lemma summary_injective_witness : 12%nat = 12%nat.
Proof. apply (summary_injective 12 12). reflexivity. Defined.

(** ** The heat in all *)

Lemma total_cons (x : Z) (l : list Z) : total (x :: l) = x + total l.
Proof. reflexivity. Qed.

Lemma total_app (l1 l2 : list Z) : total (l1 ++ l2) = total l1 + total l2.
Proof.
  induction l1 as [| x l1 IH]; cbn [app]; [reflexivity |].
  rewrite !total_cons, IH. lia.
Qed.

Lemma total_nonneg (l : list Z) : Forall (fun v => 0 <= v) l -> 0 <= total l.
Proof.
  induction 1 as [| x l Hx _ IH]; [cbn; lia | rewrite total_cons; lia].
Qed.

Lemma total_zero (l : list Z) : Forall (fun v => v = 0) l -> total l = 0.
Proof.
  induction 1 as [| x l Hx _ IH]; [reflexivity | rewrite total_cons; lia].
Qed.

Lemma total_drop_le (l : list Z) (j : nat) :
  Forall (fun v => 0 <= v) l -> total (drop j l) <= total l.
Proof.
  intros Hl. rewrite <- (take_drop j l) at 2. rewrite total_app.
  assert (Forall (fun v => 0 <= v) (take j l)) as Ht by (apply Forall_take; exact Hl).
  pose proof (total_nonneg (take j l) Ht). lia.
Qed.

(** The cells [j], [j+1], ..., [j+m-1] hold no more than the cells from
    [j] on. *)
Lemma window_total_le (l : list Z) (m : nat) : forall j : nat,
  Forall (fun v => 0 <= v) l ->
  total (map (fun n => cell l (n + j)) (seq 0 m)) <= total (drop j l).
Proof.
  induction m as [| m IH]; intros j Hl.
  - cbn. apply total_nonneg. apply Forall_drop. exact Hl.
  - cbn [seq map]. rewrite total_cons, <- seq_shift, map_map.
    rewrite (map_ext _ (fun n => cell l (n + S j))) by (intros n; f_equal; lia).
    specialize (IH (S j) Hl). cbn [Nat.add]. unfold cell at 1.
    destruct (l !! j) as [x |] eqn:Lj; cbn [default from_option id].
    + rewrite (drop_S l x j Lj), total_cons. lia.
    + apply lookup_ge_None in Lj.
      rewrite (drop_ge l j) by lia. rewrite (drop_ge l (S j)) in IH by lia.
      change (total []) with 0 in *. lia.
Qed.

Lemma total_map_quarter (f g0 g1 g2 g3 : nat -> Z) (l : list nat) :
  (forall n, n ∈ l -> 4 * f n <= g0 n + g1 n + g2 n + g3 n) ->
  4 * total (map f l)
  <= total (map g0 l) + total (map g1 l) + total (map g2 l) + total (map g3 l).
Proof.
  induction l as [| n l IH]; intros H; cbn [map]; [cbn; lia |].
  specialize (IH (fun k Hk => H k ltac:(right; exact Hk))).
  specialize (H n ltac:(left)). rewrite !total_cons. lia.
Qed.

Lemma for_each_app {S} (body : Z -> S -> res S) (l1 l2 : list Z) (s : S) :
  for_each (l1 ++ l2) body s = s' ← for_each l1 body s; for_each l2 body s'.
Proof.
  revert s. induction l1 as [| i l1 IH]; intros s; cbn [for_each app]; [reflexivity |].
  destruct (body i s) as [s1 |]; cbn; [apply IH | reflexivity].
Qed.

Lemma getitem_cell (b : list Z) j :
  0 <= j < Z.of_nat (length b) -> getitem b j = Ok (cell b (Z.to_nat j)).
Proof.
  intros Hj. destruct (getitem_in_range b j Hj) as (x & Hx & Hl).
  rewrite Hx. unfold cell. rewrite Hl. reflexivity.
Qed.

Lemma cell_range (b : list Z) (P : Z -> Prop) (n : nat) :
  Forall P b -> P 0 -> P (cell b n).
Proof.
  intros Hb H0. unfold cell. destruct (b !! n) as [x |] eqn:E; cbn; [| exact H0].
  rewrite Forall_lookup in Hb. exact (Hb _ _ E).
Qed.

(** The buffer after the first [k] updates of the pass computed from the
    values [b] had before: the new values, then the old cells. *)
Lemma snapshot_pass_form width height M (b : list Z) :
  0 < width -> 0 < height -> 4 * M < F64.two53 ->
  length b = length (init_buffer width height) ->
  Forall (fun v => 0 <= v <= M) b ->
  forall k : nat, (k <= Z.to_nat (width * height))%nat ->
    for_each (seqZ 0 (Z.of_nat k))
      (fun i acc => v ← spread_value width b i; setitem acc i v) b
    = Ok (map (fun n => (cell b n + cell b (n + 1) + cell b (n + Z.to_nat width)
                         + cell b (n + Z.to_nat width + 1)) / 4) (seq 0 k)
          ++ drop k b).
Proof.
  intros Hw Hh HM Hlen Hb.
  pose proof (init_buffer_length width height Hw Hh) as L. rewrite <- Hlen in L.
  assert (0 <= M) as HM0.
  { destruct b as [| x b]; [cbn in L; nia |]. apply Forall_cons in Hb as [? _]. lia. }
  induction k as [| k IH]; intros Hk.
  - cbn. rewrite drop_0. reflexivity.
  - rewrite seqZ_S, for_each_app, IH by lia. cbn [mbind res_bind for_each].
    rewrite Z.add_0_l. unfold spread_value.
    rewrite !getitem_cell by lia. cbn [mbind res_bind].
    unfold int_truediv. cbn [Z.eqb mbind res_bind].
    replace (Z.to_nat (Z.of_nat k)) with k by lia.
    replace (Z.to_nat (Z.of_nat k + 1)) with (k + 1)%nat by lia.
    replace (Z.to_nat (Z.of_nat k + width)) with (k + Z.to_nat width)%nat by lia.
    replace (Z.to_nat (Z.of_nat k + width + 1)) with (k + Z.to_nat width + 1)%nat by lia.
    destruct (mean4_bounds M (cell b k) (cell b (k + 1)) (cell b (k + Z.to_nat width))
                (cell b (k + Z.to_nat width + 1)) HM) as [-> _];
      try (apply (cell_range b (fun v => 0 <= v <= M)); [exact Hb | lia]).
    set (F := fun n => (cell b n + cell b (n + 1) + cell b (n + Z.to_nat width)
                        + cell b (n + Z.to_nat width + 1)) / 4).
    change ((cell b k + cell b (k + 1) + cell b (k + Z.to_nat width)
             + cell b (k + Z.to_nat width + 1)) / 4) with (F k).
    rewrite setitem_in_range.
    2: { rewrite length_app, length_map, length_seq, length_drop. lia. }
    f_equal. rewrite Nat2Z.id.
    rewrite insert_app_r_alt by (rewrite length_map, length_seq; lia).
    rewrite length_map, length_seq, Nat.sub_diag.
    destruct (lookup_lt_is_Some_2 b k ltac:(lia)) as [x Hx].
    rewrite (drop_S b x k Hx). cbn [insert list_insert].
    rewrite seq_S, map_app. cbn [map Nat.add]. rewrite <- app_assoc. reflexivity.
Qed.

(** X15.  Diffusion never adds heat: on a buffer of the allocated length
    with heats in [0, M] ([4*M] below 2^53) whose cells behind the grid
    are zero, the heat in all after a pass is at most the heat in all
    before it, and the cells behind the grid are still zero. *)
Theorem diffuse_never_adds_heat (width height M : Z) (b b' : list Z) :
  0 < width -> 0 < height -> 4 * M < F64.two53 ->
  length b = length (init_buffer width height) ->
  Forall (fun v => 0 <= v <= M) b ->
  Forall (fun v => v = 0) (drop (Z.to_nat (width * height)) b) ->
  diffuse width height b = Ok b' ->
  total b' <= total b /\
  Forall (fun v => v = 0) (drop (Z.to_nat (width * height)) b').
Proof.
  intros Hw Hh HM Hlen Hb Hslack Run.
  rewrite diffuse_is_snapshot in Run by lia.
  unfold diffuse_snapshot, range in Run.
  pose proof (snapshot_pass_form width height M b Hw Hh HM Hlen Hb
                (Z.to_nat (width * height)) ltac:(lia)) as Form.
  rewrite Z2Nat.id in Form by nia. rewrite Form in Run. injection Run as <-.
  set (n := Z.to_nat (width * height)) in *.
  set (W := Z.to_nat width) in *.
  set (F := fun k => (cell b k + cell b (k + 1) + cell b (k + W) + cell b (k + W + 1)) / 4).
  assert (Forall (fun v => 0 <= v) b) as Hnn
    by (eapply Forall_impl; [exact Hb | cbn; intros; lia]).
  split.
  - rewrite total_app, (total_zero _ Hslack).
    pose proof (total_map_quarter F (fun k => cell b (k + 0)) (fun k => cell b (k + 1))
                  (fun k => cell b (k + W)) (fun k => cell b (k + (W + 1))) (seq 0 n)) as Q.
    assert (forall k, k ∈ seq 0 n ->
              4 * F k <= cell b (k + 0) + cell b (k + 1) + cell b (k + W) + cell b (k + (W + 1)))
      as Hq.
    { intros k _. unfold F. rewrite Nat.add_0_r, Nat.add_assoc.
      pose proof (Z.mul_div_le (cell b k + cell b (k + 1) + cell b (k + W)
                                + cell b (k + W + 1)) 4 ltac:(lia)). lia. }
    specialize (Q Hq).
    pose proof (window_total_le b n 0 Hnn) as W0.
    pose proof (window_total_le b n 1 Hnn) as W1.
    pose proof (window_total_le b n W Hnn) as W2.
    pose proof (window_total_le b n (W + 1) Hnn) as W3.
    pose proof (total_drop_le b 0 Hnn). pose proof (total_drop_le b 1 Hnn).
    pose proof (total_drop_le b W Hnn). pose proof (total_drop_le b (W + 1) Hnn).
    lia.
  - rewrite drop_app_length'; [exact Hslack |].
    rewrite length_map, length_seq. reflexivity.
Qed.

Lemma diffuse_never_adds_heat_witness :
  total (<[10%nat := 16]> (<[11%nat := 16]> (<[19%nat := 16]> (<[20%nat := 16]> (init_buffer 9 3)))))
  <= total (<[20%nat := 65]> (init_buffer 9 3)) /\
  Forall (fun v => v = 0)
    (drop (Z.to_nat (9 * 3))
       (<[10%nat := 16]> (<[11%nat := 16]> (<[19%nat := 16]> (<[20%nat := 16]> (init_buffer 9 3)))))).
Proof.
  apply (diffuse_never_adds_heat 9 3 65 (<[20%nat := 65]> (init_buffer 9 3))).
  - lia.
  - lia.
  - reflexivity.
  - reflexivity.
  - apply Forall_insert; [apply Forall_replicate; lia | lia].
  - vm_compute. repeat constructor.
  - vm_compute. reflexivity.
Defined.

(** ** The pass in closed form *)

Lemma diffuse_form width height M (b : list Z) :
  0 < width -> 0 < height -> 4 * M < F64.two53 ->
  length b = length (init_buffer width height) ->
  Forall (fun v => 0 <= v <= M) b ->
  diffuse width height b
  = Ok (map (fun n => (cell b n + cell b (n + 1) + cell b (n + Z.to_nat width)
                       + cell b (n + Z.to_nat width + 1)) / 4)
            (seq 0 (Z.to_nat (width * height)))
        ++ drop (Z.to_nat (width * height)) b).
Proof.
  intros Hw Hh HM Hlen Hb.
  rewrite diffuse_is_snapshot by lia. unfold diffuse_snapshot, range.
  pose proof (snapshot_pass_form width height M b Hw Hh HM Hlen Hb
                (Z.to_nat (width * height)) ltac:(lia)) as Form.
  rewrite Z2Nat.id in Form by nia. exact Form.
Qed.

(** X16.  What a whole pass computes: on a buffer of the allocated
    length with heats in [0, M] ([4*M] below 2^53) the pass succeeds,
    every grid cell [n] ends as the floor of the mean of the values the
    cells [n], [n+1], [n+width] and [n+width+1] had before the pass, and
    every cell behind the grid is unchanged. *)
Theorem diffuse_cellwise (width height M : Z) (b : list Z) :
  0 < width -> 0 < height -> 4 * M < F64.two53 ->
  length b = length (init_buffer width height) ->
  Forall (fun v => 0 <= v <= M) b ->
  exists b',
    diffuse width height b = Ok b' /\
    length b' = length b /\
    (forall n, (n < Z.to_nat (width * height))%nat ->
       b' !! n = Some ((cell b n + cell b (n + 1) + cell b (n + Z.to_nat width)
                        + cell b (n + Z.to_nat width + 1)) / 4)) /\
    (forall n, (Z.to_nat (width * height) <= n)%nat -> b' !! n = b !! n).
Proof.
  intros Hw Hh HM Hlen Hb.
  pose proof (init_buffer_length width height Hw Hh) as L. rewrite <- Hlen in L.
  eexists. split; [apply (diffuse_form width height M); assumption |].
  set (F := fun n => (cell b n + cell b (n + 1) + cell b (n + Z.to_nat width)
                      + cell b (n + Z.to_nat width + 1)) / 4).
  change (map F ?l) with (F <$> l).
  split; [| split].
  - rewrite length_app, length_fmap, length_seq, length_drop. lia.
  - intros n Hn.
    rewrite lookup_app_l by (rewrite length_fmap, length_seq; exact Hn).
    rewrite list_lookup_fmap, lookup_seq_lt by exact Hn. reflexivity.
  - intros n Hn.
    rewrite lookup_app_r by (rewrite length_fmap, length_seq; exact Hn).
    rewrite length_fmap, length_seq, lookup_drop. f_equal. lia.
Qed.

Lemma diffuse_cellwise_witness :
  exists b',
    diffuse 9 3 (<[20%nat := 65]> (init_buffer 9 3)) = Ok b' /\
    length b' = length (<[20%nat := 65]> (init_buffer 9 3)) /\
    (forall n, (n < Z.to_nat (9 * 3))%nat ->
       b' !! n = Some ((cell (<[20%nat := 65]> (init_buffer 9 3)) n
                        + cell (<[20%nat := 65]> (init_buffer 9 3)) (n + 1)
                        + cell (<[20%nat := 65]> (init_buffer 9 3)) (n + Z.to_nat 9)
                        + cell (<[20%nat := 65]> (init_buffer 9 3)) (n + Z.to_nat 9 + 1)) / 4)) /\
    (forall n, (Z.to_nat (9 * 3) <= n)%nat -> b' !! n = <[20%nat := 65]> (init_buffer 9 3) !! n).
Proof.
  apply (diffuse_cellwise 9 3 65 (<[20%nat := 65]> (init_buffer 9 3))).
  - lia.
  - lia.
  - reflexivity.
  - reflexivity.
  - apply Forall_insert; [apply Forall_replicate; lia | lia].
Defined.

(** What a pass from cell [i] on leaves: the cells below [i] as they
    were, and for every later cell but the last whose draw the terminal
    accepts, a draw of the glyph and the colour of the heat the cell ends
    with. *)
Lemma pass_shows e width height :
  0 < width -> 0 < height -> width * height < F64.two53 ->
  forall (k : nat) i (b : list Z) (sc : list draw),
    0 <= i -> i + Z.of_nat k = width * height ->
    buffer_ok width height b ->
    exists b' new,
      for_each (seqZ i (Z.of_nat k)) (spread_cell e width height) (b, sc)
      = Ok (b', sc ++ new) /\
      buffer_ok width height b' /\
      (forall n, (n < Z.to_nat i)%nat -> b' !! n = b !! n) /\
      (forall j, i <= j < width * height - 1 ->
         addstr_err e (j / width) (j `mod` width) = false ->
         exists v g,
           b' !! Z.to_nat j = Some v /\ getitem char (ramp v) = Ok g /\
           mkdraw (j / width) (j `mod` width) g (color v) true ∈ new).
Proof.
  intros Hw Hh Hsz.
  induction k as [| k IH]; intros i b sc Hi Hik Hb.
  - exists b, []. rewrite app_nil_r.
    split; [reflexivity |]. split; [exact Hb |]. split; [reflexivity |].
    intros j Hj. lia.
  - rewrite seqZ_cons by lia.
    replace (Z.pred (Z.of_nat (S k))) with (Z.of_nat k) by lia.
    cbn [for_each].
    destruct (spread_cell_spec e width height i b sc Hw Hh Hsz Hb ltac:(lia))
      as (v & g & Hv & Hg & Hcell).
    rewrite Hcell. cbn [mbind res_bind].
    pose proof (buffer_ok_insert width height b (Z.to_nat i) v Hb Hv) as Hb1.
    set (d := mkdraw (i / width) (i `mod` width) g (color v) true) in *.
    set (shown := (i <? width * height - 1)
                  && negb (addstr_err e (i / width) (i `mod` width))) in *.
    destruct (IH (Z.succ i) (<[Z.to_nat i := v]> b) (if shown then sc ++ [d] else sc)
                ltac:(lia) ltac:(lia) Hb1) as (b' & new & Run & Hb' & Hlow & Hshow).
    assert (b' !! Z.to_nat i = Some v) as Hcur.
    { rewrite Hlow by lia. apply list_lookup_insert_eq.
      destruct Hb as [Hlen _].
      pose proof (init_buffer_length width height Hw Hh) as L. rewrite <- Hlen in L. lia. }
    exists b', ((if shown then [d] else []) ++ new).
    split; [| split; [exact Hb' | split]].
    + rewrite Run. f_equal. f_equal.
      destruct shown; [rewrite <- app_assoc; reflexivity | reflexivity].
    + intros n Hn. rewrite Hlow by lia. apply list_lookup_insert_ne. lia.
    + intros j Hj Hacc. destruct (Z.eq_dec j i) as [-> | Hne].
      * exists v, g. split; [exact Hcur |]. split; [exact Hg |].
        apply elem_of_app. left. subst shown. rewrite Hacc.
        destruct (Z.ltb_spec i (width * height - 1)); [| lia].
        cbn. left.
      * destruct (Hshow j ltac:(lia) Hacc) as (v' & g' & ? & ? & Hin).
        exists v', g'. split; [assumption |]. split; [assumption |].
        apply elem_of_app. right. exact Hin.
Qed.

(** X17.  An injection shows in the frame that makes it: on a terminal of
    fewer than 2^53 cells, every injection of a frame that lands on a
    grid cell leaves that cell, at the end of the frame, with a heat in
    [16, 65], which is colour pair 4 and the glyph ["$"]; and unless the
    cell is the last one of the grid or the terminal refuses the draw,
    the frame has drawn it at its position as a bold ["$"] in colour
    pair 4. *)
Theorem injected_cell_glows (e : env) (width height : Z) (st : state) :
  0 < width -> 0 < height -> width * height < F64.two53 ->
  (forall j, 0 <= rand e j < F64.two53) ->
  buffer_ok width height (buf st) ->
  exists st' new,
    frame e width height st = Ok st' /\
    scr st' = scr st ++ new /\
    forall j, (j < Z.to_nat (width / 9))%nat ->
      let idx := inject_index width height (rand e (calls st + j)%nat) in
      idx < width * height ->
      (exists v,
         buf st' !! Z.to_nat idx = Some v /\ 16 <= v <= 65 /\
         color v = 4 /\ getitem char (ramp v) = Ok "$"%string) /\
      (idx < width * height - 1 ->
       addstr_err e (idx / width) (idx `mod` width) = false ->
       mkdraw (idx / width) (idx `mod` width) "$" 4 true ∈ new).
Proof.
  intros Hw Hh Hsz Hr Hb. unfold frame.
  rewrite inject_count_floor by nia.
  destruct (inject_spec e width height (Z.to_nat (width / 9)) (calls st) (buf st)
              Hw Hh Hsz Hr (proj1 Hb)) as (b1 & Run & L1 & Hit & _).
  destruct (inject_ok e width height (Z.to_nat (width / 9)) (calls st) (buf st)
              Hw Hh Hsz Hr Hb) as (b1' & Run' & Hb1).
  rewrite Run in Run'. injection Run' as <-.
  rewrite Run. cbn [mbind res_bind]. cbv beta iota.
  destruct (pass_shows e width height Hw Hh Hsz (Z.to_nat (width * height)) 0 b1 (scr st)
              ltac:(lia) ltac:(nia) Hb1) as (b2 & new & Pass & Hb2 & _ & Hshow).
  rewrite Z2Nat.id in Pass by nia. fold (range (width * height)) in Pass.
  rewrite Pass. cbn [mbind res_bind]. cbv beta iota.
  eexists _, new. split; [reflexivity |]. split; [reflexivity |]. cbn [buf].
  intros j Hj Hidx.
  pose proof (inject_index_range width height (rand e (calls st + j)%nat) Hw Hh Hsz (Hr _))
    as Hrange.
  specialize (Hit j Hj).
  set (idx := inject_index width height (rand e (calls st + j)%nat)) in *.
  pose proof (spread_cell_buffer e width height _ _ _ _ _ Pass) as D.
  fold (diffuse width height b1) in D.
  rewrite (diffuse_form width height 65 b1 Hw Hh ltac:(reflexivity) (proj1 Hb1) (proj2 Hb1))
    in D.
  set (F := fun n => (cell b1 n + cell b1 (n + 1) + cell b1 (n + Z.to_nat width)
                      + cell b1 (n + Z.to_nat width + 1)) / 4) in *.
  assert (b2 !! Z.to_nat idx = Some (F (Z.to_nat idx))) as Hlook.
  { injection D as <-. change (map F ?l) with (F <$> l).
    assert (Z.to_nat idx < Z.to_nat (width * height))%nat as Hn by nia.
    rewrite lookup_app_l by (rewrite length_fmap, length_seq; exact Hn).
    rewrite list_lookup_fmap, lookup_seq_lt by exact Hn. reflexivity. }
  assert (cell b1 (Z.to_nat idx) = 65) as C0.
  { unfold cell. rewrite Hit. reflexivity. }
  assert ((fun v => 0 <= v <= 65) 0) as Z0 by (cbn; lia).
  pose proof (cell_range b1 _ (Z.to_nat idx + 1) (proj2 Hb1) Z0) as C1.
  pose proof (cell_range b1 _ (Z.to_nat idx + Z.to_nat width) (proj2 Hb1) Z0) as C2.
  pose proof (cell_range b1 _ (Z.to_nat idx + Z.to_nat width + 1) (proj2 Hb1) Z0) as C3.
  cbn beta in C1, C2, C3.
  assert (16 <= F (Z.to_nat idx) <= 65) as Hv.
  { unfold F. rewrite C0. split.
    - apply Z.div_le_lower_bound; lia.
    - apply Z.div_le_upper_bound; lia. }
  assert (color (F (Z.to_nat idx)) = 4 /\
          getitem char (ramp (F (Z.to_nat idx))) = Ok "$"%string) as [Hcol Hgl].
  { unfold color, ramp.
    destruct (Z.ltb_spec 15 (F (Z.to_nat idx))); [| lia].
    destruct (Z.ltb_spec 9 (F (Z.to_nat idx))); [| lia].
    split; reflexivity. }
  split.
  - exists (F (Z.to_nat idx)). auto.
  - intros Hlast Hacc.
    assert (0 <= idx < width * height - 1) as Hin0 by nia.
    destruct (Hshow idx Hin0 Hacc) as (v' & g' & Hv' & Hg' & Hin).
    rewrite Hlook in Hv'. injection Hv' as <-.
    rewrite Hgl in Hg'. injection Hg' as <-.
    rewrite Hcol in Hin. exact Hin.
Qed.

Lemma injected_cell_glows_witness :
  exists st' new,
    frame idle_env 80 24 (init_state 80 24) = Ok st' /\
    scr st' = scr (init_state 80 24) ++ new /\
    forall j, (j < Z.to_nat (80 / 9))%nat ->
      let idx := inject_index 80 24 (rand idle_env (calls (init_state 80 24) + j)%nat) in
      idx < 80 * 24 ->
      (exists v,
         buf st' !! Z.to_nat idx = Some v /\ 16 <= v <= 65 /\
         color v = 4 /\ getitem char (ramp v) = Ok "$"%string) /\
      (idx < 80 * 24 - 1 ->
       addstr_err idle_env (idx / 80) (idx `mod` 80) = false ->
       mkdraw (idx / 80) (idx `mod` 80) "$" 4 true ∈ new).
Proof.
  apply (injected_cell_glows idle_env 80 24 (init_state 80 24)).
  - lia.
  - lia.
  - reflexivity.
  - intros j. cbn. unfold F64.two53. lia.
  - apply init_state_ok.
Defined.

Lemma main_heat_range_witness :
  exists st,
    main small_env 5 = Some (Ok tt, [Endwin; Print (summary 2)], st) /\
    reach (getmaxyx small_env).2 (getmaxyx small_env).1 (buf st) /\
    Forall (fun v => 0 <= v <= 65) (buf st).
Proof.
  eexists. split; [vm_compute; reflexivity |].
  apply (main_heat_range small_env 5 (Ok tt) [Endwin; Print (summary 2)]).
  vm_compute. reflexivity.
Defined.
